(** * nodo_central.py: per-device buffers, median reduction and timed publication

    A shallow embedding of [nodo_central_ros/nodo_central.py].  The node keeps
    one list of received JSON objects per [id_dispositivo]; a timer callback
    publishes, at minutes 0 and 30, the median of every numeric field of every
    non-empty buffer with an HTTP POST and then empties that buffer.

    The first module models the Python values and builtins the file relies on
    ([json.loads] results, [isinstance], truth value, [<], [+], [/], [round],
    [statistics.median], [dict.get], hashing of dictionary keys).  The builtin
    [sorted] is an interface: what is proved holds for every sort that meets
    its contract, which [list.sort] does.  The functions of the source follow
    under their own names. *)

From Stdlib Require Import ZArith List String Bool Lia Permutation Sorted.
From Stdlib Require Import SpecFloat.
Import ListNotations.

Set Warnings "-register-all".

Local Open Scope string_scope.
Local Open Scope list_scope.
Local Open Scope Z_scope.

(** ** Exceptions and the error monad

    [try]/[except] blocks of the source are case analyses on a sum. *)

Inductive excepcion : Type :=
| JSONDecodeError
| AttributeError
| TypeError
| IndexError
| OverflowError
| StatisticsError
| ValueError
| RecursionError.

Definition res (A : Type) : Type := (excepcion + A)%type.

Definition ret {A : Type} (a : A) : res A := inr a.
Definition raise {A : Type} (e : excepcion) : res A := inl e.

Definition bind {A B : Type} (m : res A) (k : A -> res B) : res B :=
  match m with
  | inl e => inl e
  | inr a => k a
  end.

Notation "x <- m ;; k" := (bind m (fun x => k))
  (at level 61, m at next level, right associativity).

(** ** Python values *)

Module Py.

(** Python numbers: [bool] is a subclass of [int]; an [int] is unbounded; a
    [float] is an IEEE binary64 value in the representation of [SpecFloat]. *)
Inductive numero : Type :=
| NBool (b : bool)
| NInt (z : Z)
| NFloat (f : spec_float).

(** Objects that [json.loads] can build. *)
Inductive valor : Type :=
| VNone
| VNum (n : numero)
| VStr (s : string)
| VList (l : list valor)
| VDict (d : list (string * valor)).

(** A JSON object: the bindings of a [dict] with [str] keys; the first binding
    of a key is the one the dictionary holds. *)
Definition dict : Type := list (string * valor).

Fixpoint dict_lookup (campo : string) (d : dict) : option valor :=
  match d with
  | [] => None
  | (k, v) :: d' => if String.eqb k campo then Some v else dict_lookup campo d'
  end.

(** [campo in d] *)
Definition dict_in (campo : string) (d : dict) : bool :=
  match dict_lookup campo d with Some _ => true | None => false end.

(** [d.get(campo, defecto)] and [d.get(campo)] *)
Definition dict_get_or (campo : string) (defecto : valor) (d : dict) : valor :=
  match dict_lookup campo d with Some v => v | None => defecto end.

Definition dict_get (campo : string) (d : dict) : valor :=
  dict_get_or campo VNone d.

(** *** binary64 *)

Definition prec : Z := 53.
Definition emax : Z := 1024.

(** The binary64 value nearest to [n/d] (ties to even), with sign [s]. *)
Definition float_de_racional (s : bool) (n d : positive) : spec_float :=
  let '(mz, ez, lz) := SFdiv_core_binary prec emax (Zpos n) 0 (Zpos d) 0 in
  binary_round_aux prec emax s mz ez lz.

(** [float(z)] for an [int]: correctly rounded, [OverflowError] when the
    result is not finite. *)
Definition a_float (z : Z) : res spec_float :=
  match binary_normalize prec emax z 0 false with
  | S754_infinity _ => raise OverflowError
  | f => ret f
  end.

Definition dos : spec_float := S754_finite false 4503599627370496 (-51).

(** [isinstance(v, (int, float))] *)
Definition es_numero (v : valor) : bool :=
  match v with
  | VNum _ => true
  | _ => false
  end.

(** The [int] behind an [int] or [bool] object. *)
Definition entero (a : numero) : option Z :=
  match a with
  | NBool b => Some (Z.b2z b)
  | NInt z => Some z
  | NFloat _ => None
  end.

(** The operand of a [float] operation. *)
Definition flotante (a : numero) : res spec_float :=
  match a with
  | NBool b => a_float (Z.b2z b)
  | NInt z => a_float z
  | NFloat f => ret f
  end.

(** [a + b]: an [int] when both are [int] or [bool], else a [float]. *)
Definition suma (a b : numero) : res numero :=
  match entero a, entero b with
  | Some x, Some y => ret (NInt (x + y))
  | _, _ =>
      f <- flotante a ;;
      g <- flotante b ;;
      ret (NFloat (SFadd prec emax f g))
  end.

(** [a / 2]: true division; on an [int] the exact quotient is rounded once and
    [OverflowError] is raised when it does not fit a [float]. *)
Definition entre_dos (a : numero) : res numero :=
  match entero a with
  | Some x =>
      match binary_normalize prec emax x (-1) false with
      | S754_infinity _ => raise OverflowError
      | f => ret (NFloat f)
      end
  | None =>
      f <- flotante a ;;
      ret (NFloat (SFdiv prec emax f dos))
  end.

(** The integer nearest to [n/d], ties to the even one. *)
Definition cociente_par (n d : Z) : Z :=
  let q := n / d in
  let r := n mod d in
  match 2 * r ?= d with
  | Lt => q
  | Gt => q + 1
  | Eq => if Z.even q then q else q + 1
  end.

(** [round(f, 2)] on a [float]: the decimal with two digits nearest to the
    exact value of [f] (ties to even), read back as the nearest binary64.
    Zeros, infinities and NaN round to themselves.  A [float] large enough
    for the conversion back to overflow is an integer and rounds to itself,
    so with two digits the builtin has no error case. *)
Definition round2_float (f : spec_float) : spec_float :=
  match f with
  | S754_finite s m e =>
      let k :=
        match e with
        | Zneg p => cociente_par (100 * Zpos m) (Z.pow_pos 2 p)
        | _ => 100 * Zpos m * 2 ^ e
        end in
      match k with
      | Zpos n => float_de_racional s n 100
      | _ => S754_zero s
      end
  | _ => f
  end.

(** [round(a, 2)]; on [int] and [bool] the result is an [int]. *)
Definition round2 (a : numero) : numero :=
  match a with
  | NBool b => NInt (Z.b2z b)
  | NInt z => NInt z
  | NFloat f => NFloat (round2_float f)
  end.

(** *** Order

    Python compares [int], [bool] and [float] by exact value; every comparison
    with NaN is false.  [magnitud] is the exact value scaled by [2^1074], an
    integer for every binary64 (whose exponent is at least [-1074]). *)
Inductive magnitud : Type :=
| MNegInf
| MFin (z : Z)
| MPosInf.

Definition escala : Z := 1074.

Definition magnitud_de (a : numero) : option magnitud :=
  match a with
  | NBool b => Some (MFin (Z.shiftl (Z.b2z b) escala))
  | NInt z => Some (MFin (Z.shiftl z escala))
  | NFloat (S754_zero _) => Some (MFin 0)
  | NFloat (S754_infinity s) => Some (if s then MNegInf else MPosInf)
  | NFloat (S754_finite s m e) =>
      Some (MFin (cond_Zopp s (Z.shiftl (Zpos m) (e + escala))))
  | NFloat S754_nan => None
  end.

Definition magnitud_ltb (x y : magnitud) : bool :=
  match x, y with
  | MNegInf, MNegInf => false
  | MNegInf, _ => true
  | MFin _, MNegInf => false
  | MFin a, MFin b => a <? b
  | MFin _, MPosInf => true
  | MPosInf, _ => false
  end.

(** [a < b] on numbers. *)
Definition menor (a b : numero) : bool :=
  match magnitud_de a, magnitud_de b with
  | Some x, Some y => magnitud_ltb x y
  | _, _ => false
  end.

(** [a] is not above [b], as far as [<] tells. *)
Definition no_mayor (a b : numero) : Prop := menor b a = false.

(** A number other than NaN. *)
Definition sin_nan (a : numero) : Prop := magnitud_de a <> None.

(** *** [sorted]

    On values that [<] orders totally, those without NaN, [sorted] has one
    possible result: the values in non-decreasing order, equal ones in their
    order of arrival.  [ordenar_estable] builds it, inserting each element,
    from the right, before the first element that is not smaller than it. *)
Fixpoint insertar (x : numero) (l : list numero) : list numero :=
  match l with
  | [] => [x]
  | y :: l' => if menor y x then y :: insertar x l' else x :: l
  end.

Fixpoint ordenar_estable (l : list numero) : list numero :=
  match l with
  | [] => []
  | x :: l' => insertar x (ordenar_estable l')
  end.

(** With a NaN among the values [<] is no total order and the list that
    [list.sort] returns depends on its runs and merges.  [sorted] is
    therefore any function with the properties of [list.sort] that do not
    depend on them:
    - the result is a rearrangement of the argument;
    - on values without NaN it is the stable non-decreasing order;
    - a list in which no element is smaller than the one before it is one
      ascending run, and is returned as it is;
    - the sort looks at its elements through [<] only, so it commutes with
      every change of the elements that keeps all the comparisons. *)
Class Ordenacion : Type := {
  sorted : list numero -> list numero;
  sorted_permutacion : forall l, Permutation (sorted l) l;
  sorted_sin_nan : forall l, Forall sin_nan l -> sorted l = ordenar_estable l;
  sorted_creciente : forall l, Sorted no_mayor l -> sorted l = l;
  sorted_comparaciones :
    forall (f : numero -> numero) (l : list numero),
      (forall a b, menor (f a) (f b) = menor a b) ->
      sorted (map f l) = map f (sorted l)
}.

(** The stable insertion sort is such a function. *)
#[export] Instance ordenacion_estable : Ordenacion.
Proof.
  refine {| sorted := ordenar_estable |}.
  - assert (Hins : forall x l, Permutation (insertar x l) (x :: l)).
    { intros x l. induction l as [|y l IH]; simpl; [apply Permutation_refl|].
      destruct (menor y x); [|apply Permutation_refl].
      eapply perm_trans; [apply perm_skip, IH | apply perm_swap]. }
    induction l as [|x l IH]; simpl; [constructor|].
    eapply perm_trans; [apply Hins | apply perm_skip, IH].
  - reflexivity.
  - induction 1 as [|x l Hl IH Hhd]; simpl; [reflexivity|].
    rewrite IH. destruct Hhd as [|y l' Hxy]; simpl; [reflexivity|].
    unfold no_mayor in Hxy. now rewrite Hxy.
  - intros f l Hf. induction l as [|x l IH]; simpl; [reflexivity|].
    rewrite IH. generalize (ordenar_estable l) as s.
    induction s as [|y s IHs]; simpl; [reflexivity|].
    rewrite Hf. destruct (menor y x); simpl; [now rewrite IHs | reflexivity].
Defined.

(** *** [statistics.median] *)
Definition indice (l : list numero) (i : nat) : res numero :=
  match nth_error l i with
  | Some v => ret v
  | None => raise IndexError
  end.

Definition median {O : Ordenacion} (data : list numero) : res numero :=
  let data := sorted data in
  let n := List.length data in
  if Nat.eqb n 0 then raise StatisticsError
  else if Nat.eqb (Nat.modulo n 2) 1 then indice data (Nat.div n 2)
  else
    let i := Nat.div n 2 in
    a <- indice data (i - 1)%nat ;;
    b <- indice data i ;;
    s <- suma a b ;;
    entre_dos s.

(** *** Truth value *)
Definition verdadero (v : valor) : bool :=
  match v with
  | VNone => false
  | VNum (NBool b) => b
  | VNum (NInt z) => negb (z =? 0)
  | VNum (NFloat (S754_zero _)) => false
  | VNum (NFloat _) => true
  | VStr s => negb (String.eqb s "")
  | VList l => match l with [] => false | _ => true end
  | VDict d => match d with [] => false | _ => true end
  end.

(** *** Dictionary keys

    Two objects are the same key when they hash alike and are equal: numbers
    by exact value ([1], [1.0] and [True] are one key), strings by content.
    [json.loads] yields one and the same NaN object, which is a key equal to
    itself only.  Lists and dictionaries are unhashable. *)
Inductive clave : Type :=
| CNone
| CNum (m : magnitud)
| CNaN
| CStr (s : string).

Definition hash (v : valor) : res clave :=
  match v with
  | VNone => ret CNone
  | VStr s => ret (CStr s)
  | VList _ | VDict _ => raise TypeError
  | VNum a => match magnitud_de a with
              | Some m => ret (CNum m)
              | None => ret CNaN
              end
  end.

Definition magnitud_eq_dec (x y : magnitud) : {x = y} + {x <> y}.
Proof. decide equality; apply Z.eq_dec. Defined.

Definition clave_eq_dec (x y : clave) : {x = y} + {x <> y}.
Proof. decide equality; [apply magnitud_eq_dec | apply string_dec]. Defined.

Definition clave_eqb (x y : clave) : bool :=
  if clave_eq_dec x y then true else false.

End Py.

Import Py.

(** ** Module-level definitions of [nodo_central.py] *)

Definition API_URL : string := "https://biorreactor-app.onrender.com/api/sensores".

(** The text an f-string field produces: a number with two decimals, or
    ["N/A"]. *)
Inductive texto : Type :=
| Decimales (a : numero)
| NA.

(** [formato_seguro(value)].  Formatting an [int] with [.2f] converts it to
    [float] first and raises [OverflowError] when it is too large. *)
Definition formato_seguro (value : valor) : res texto :=
  match value with
  | VNum a =>
      match entero a with
      | Some z => _ <- a_float z ;; ret (Decimales a)
      | None => ret (Decimales a)
      end
  | _ => ret NA
  end.

(** The number that an object of type [int], [float] or [bool] is. *)
Definition numero_de (v : valor) : list numero :=
  match v with
  | VNum a => [a]
  | _ => []
  end.

(** The list comprehension of [calcular_mediana]:
    [d[campo] for d in buffer if campo in d and isinstance(d[campo], (int, float))]. *)
Definition valores_de (buffer : list dict) (campo : string) : list numero :=
  flat_map (fun d => if dict_in campo d && es_numero (dict_get campo d)
                     then numero_de (dict_get campo d)
                     else []) buffer.

(** [calcular_mediana(buffer, campo)]: any exception gives [None]. *)
Definition calcular_mediana {O : Ordenacion} (buffer : list dict) (campo : string)
  : valor :=
  let valores := valores_de buffer campo in
  match valores with
  | [] => VNone
  | _ :: _ =>
      match median (sorted valores) with
      | inr m => VNum m
      | inl _ => VNone
      end
  end.

(** [redondear(valor)] *)
Definition redondear (valor : Py.valor) : Py.valor :=
  match valor with
  | VNum a => VNum (round2 a)
  | _ => VNone
  end.

(** ** The payload sent to the API *)

Record datos : Type := {
  id_dispositivo : valor;
  dominio : valor;
  temperatura : valor;
  ph : valor;
  turbidez : valor;
  oxigeno : valor;
  luz : valor
}.

(** [buffer[-1]] *)
Definition ultimo (buffer : list dict) : res dict :=
  match rev buffer with
  | [] => raise IndexError
  | d :: _ => ret d
  end.

(** The dictionary display [datos_filtrados = {...}] of [publicar_datos]. *)
Definition datos_filtrados {O : Ordenacion} (id_disp : valor) (buffer : list dict)
  : res datos :=
  d <- ultimo buffer ;;
  ret {| id_dispositivo := id_disp;
         dominio := dict_get_or "dominio" (VStr "desconocido") d;
         temperatura := redondear (calcular_mediana buffer "temperatura");
         ph := redondear (calcular_mediana buffer "ph");
         turbidez := redondear (calcular_mediana buffer "turbidez");
         oxigeno := redondear (calcular_mediana buffer "oxigeno");
         luz := redondear (calcular_mediana buffer "luz") |}.

(** The five numeric fields of the payload. *)
Inductive campo_numerico : Type :=
| Temperatura | Ph | Turbidez | Oxigeno | Luz.

Definition nombre (c : campo_numerico) : string :=
  match c with
  | Temperatura => "temperatura"
  | Ph => "ph"
  | Turbidez => "turbidez"
  | Oxigeno => "oxigeno"
  | Luz => "luz"
  end.

Definition campo (c : campo_numerico) (x : datos) : valor :=
  match c with
  | Temperatura => temperatura x
  | Ph => ph x
  | Turbidez => turbidez x
  | Oxigeno => oxigeno x
  | Luz => luz x
  end.

(** ** Effects: log records and HTTP requests *)

Inductive nivel : Type := DEBUG | INFO | WARN | ERROR.

Inductive mensaje : Type :=
| DatoRecibido (id_disp dom : valor) (campos : list texto)
| SinIdDispositivo
| NoEsJSON
| Texto (data : string)
| ErrorProcesando (e : excepcion)
| Publicacion
| Enviados (id_disp : valor)
| ErrorAlEnviar (id_disp : valor) (status_code : Z) (text : string)
| ErrorDeRed (id_disp : valor) (e : string)
| Resumen (id_disp : valor) (campos : list texto)
| Esperando.

Inductive evento : Type :=
| Log (n : nivel) (m : mensaje)
| Post (url : string) (json : datos) (timeout : Z).

(** What [requests.post] gives back: a response, or a
    [requests.RequestException] (timeout, connection error, ...). *)
Inductive respuesta : Type :=
| Response (status_code : Z) (text : string)
| RequestException (e : string).

(** The network: the answer to the [n]-th request of a publication. *)
Definition red : Type := nat -> datos -> respuesta.

(** [formato_seguro] over the fields of one f-string, left to right. *)
Fixpoint formatos (vs : list valor) : res (list texto) :=
  match vs with
  | [] => ret []
  | v :: vs' => t <- formato_seguro v ;; ts <- formatos vs' ;; ret (t :: ts)
  end.

(** ** The node *)

Record entrada : Type := {
  clave_de : clave;
  id_de : valor;
  buffer_de : list dict
}.

(** [self]: the dictionary [buffers_por_dispositivo], in insertion order. *)
Record NodoCentral : Type := {
  buffers_por_dispositivo : list entrada
}.

(** [NodoCentral.__init__] *)
Definition init : NodoCentral := {| buffers_por_dispositivo := [] |}.

Fixpoint buscar (c : clave) (bs : list entrada) : option (list dict) :=
  match bs with
  | [] => None
  | e :: bs' => if clave_eqb (clave_de e) c then Some (buffer_de e) else buscar c bs'
  end.

(** [buffers[id_disp].append(data)] on a [defaultdict(list)]: a missing key
    is inserted, last, with an empty list before the append. *)
Fixpoint agregar (c : clave) (id_disp : valor) (data : dict) (bs : list entrada)
  : list entrada :=
  match bs with
  | [] => [{| clave_de := c; id_de := id_disp; buffer_de := [data] |}]
  | e :: bs' =>
      if clave_eqb (clave_de e) c
      then {| clave_de := clave_de e; id_de := id_de e;
              buffer_de := buffer_de e ++ [data] |} :: bs'
      else e :: agregar c id_disp data bs'
  end.

(** The log record of a received datum. *)
Definition dato_recibido (id_disp : valor) (data : dict) : res evento :=
  campos <- formatos (map (fun k => dict_get k data)
                        ["temperatura"; "luz"; "ph"; "voltaje_ph"; "turbidez";
                         "voltaje_turb"; "oxigeno"; "voltaje_o2"]) ;;
  ret (Log INFO (DatoRecibido id_disp (dict_get "dominio" data) campos)).

Section Nodo.

(** [json.loads] on the text of a message: the object, or the exception. *)
Variable json_loads : string -> res valor.

(** The body of the [try] of [listener_callback]: the node it leaves and the
    records it logged, or the exception that interrupted it.  [data.get]
    exists on a [dict] only ([AttributeError] otherwise); the record is in its
    buffer before the line that logs it is formatted. *)
Definition recibir (self : NodoCentral) (msg : string)
  : NodoCentral * res (list evento) :=
  match json_loads msg with
  | inl e => (self, raise e)
  | inr (VDict data) =>
      let id_disp := dict_get "id_dispositivo" data in
      if verdadero id_disp then
        match hash id_disp with
        | inl e => (self, raise e)
        | inr c =>
            let self' :=
              {| buffers_por_dispositivo :=
                   agregar c id_disp data (buffers_por_dispositivo self) |} in
            (self', ev <- dato_recibido id_disp data ;; ret [ev])
        end
      else (self, ret [Log WARN SinIdDispositivo])
  | inr _ => (self, raise AttributeError)
  end.

(** [listener_callback(self, msg)] *)
Definition listener_callback (self : NodoCentral) (msg : string)
  : NodoCentral * list evento :=
  match recibir self msg with
  | (self', inr evs) => (self', evs)
  | (self', inl JSONDecodeError) =>
      (self', [Log WARN NoEsJSON; Log WARN (Texto msg)])
  | (self', inl e) => (self', [Log ERROR (ErrorProcesando e)])
  end.

End Nodo.

(** The [try] around [requests.post]: the record logged for an answer. *)
Definition enviar (id_disp : valor) (r : respuesta) : evento :=
  match r with
  | Response status_code text =>
      if status_code =? 201
      then Log INFO (Enviados id_disp)
      else Log WARN (ErrorAlEnviar id_disp status_code text)
  | RequestException e => Log ERROR (ErrorDeRed id_disp e)
  end.

(** The request and the record of its answer. *)
Definition despachar (net : red) (n : nat) (x : datos) : list evento :=
  [Post API_URL x 5; enviar (id_dispositivo x) (net n x)].

(** The line that shows what was sent. *)
Definition resumen (x : datos) : res evento :=
  campos <- formatos [temperatura x; ph x; turbidez x; oxigeno x; luz x] ;;
  ret (Log INFO (Resumen (id_dispositivo x) campos)).

Definition vaciar (e : entrada) : entrada :=
  {| clave_de := clave_de e; id_de := id_de e; buffer_de := [] |}.

(** What a run leaves behind: the entries, the events in order, and the
    exception that escaped, if any. *)
Record salida (A : Type) : Type := {
  estado : A;
  traza : list evento;
  propagada : option excepcion
}.
Arguments estado {A} _.
Arguments traza {A} _.
Arguments propagada {A} _.

(** One iteration of the loop of [publicar_datos] on a non-empty buffer. *)
Definition publicar_dispositivo {O : Ordenacion} (net : red) (n : nat) (e : entrada)
  : salida entrada :=
  match datos_filtrados (id_de e) (buffer_de e) with
  | inl ex => {| estado := e; traza := []; propagada := Some ex |}
  | inr x =>
      let envio := despachar net n x in
      match resumen x with
      | inl ex => {| estado := e; traza := envio; propagada := Some ex |}
      | inr linea =>
          {| estado := vaciar e; traza := envio ++ [linea]; propagada := None |}
      end
  end.

(** The loop over [buffers_por_dispositivo.items()].  Each iteration assigns
    only to the key it is visiting, so the dictionary is the entries already
    visited followed by those still to visit; [n] counts the requests made. *)
Fixpoint bucle {O : Ordenacion} (net : red) (n : nat) (pendientes : list entrada)
  : salida (list entrada) :=
  match pendientes with
  | [] => {| estado := []; traza := []; propagada := None |}
  | e :: resto =>
      match buffer_de e with
      | [] =>
          let s := bucle net n resto in
          {| estado := e :: estado s; traza := traza s; propagada := propagada s |}
      | _ :: _ =>
          let p := publicar_dispositivo net n e in
          match propagada p with
          | Some ex =>
              {| estado := estado p :: resto; traza := traza p;
                 propagada := Some ex |}
          | None =>
              let s := bucle net (S n) resto in
              {| estado := estado p :: estado s; traza := traza p ++ traza s;
                 propagada := propagada s |}
          end
      end
  end.

(** [publicar_datos(self)], with [minuto = datetime.now().minute]. *)
Definition publicar_datos {O : Ordenacion} (self : NodoCentral) (minuto : Z) (net : red)
  : salida NodoCentral :=
  if existsb (Z.eqb minuto) [0; 30] then
    let s := bucle net 0 (buffers_por_dispositivo self) in
    {| estado := {| buffers_por_dispositivo := estado s |};
       traza := Log INFO Publicacion :: traza s;
       propagada := propagada s |}
  else
    {| estado := self; traza := [Log DEBUG Esperando]; propagada := None |}.

(** ** Notions of the specification

    The definitions below are not code of the node: they state, in the words
    of the specification, what the code is compared with. *)

(** An [int] or [bool] that [float()] accepts; every [float] is. *)
Definition convertible (a : numero) : Prop :=
  match entero a with
  | Some z => exists f, a_float z = inr f
  | None => True
  end.

(** The average of two values. *)
Definition promedio (a b : numero) : res numero :=
  s <- suma a b ;; entre_dos s.

(** The middle element of a sequence; the average of its two middle elements
    when their count is even.  There is none in an empty sequence. *)
Definition central (ordenados : list numero) : res numero :=
  let n := List.length ordenados in
  if Nat.even n then
    match nth_error ordenados (Nat.div n 2 - 1), nth_error ordenados (Nat.div n 2) with
    | Some a, Some b => promedio a b
    | _, _ => raise StatisticsError
    end
  else
    match nth_error ordenados (Nat.div n 2) with
    | Some m => ret m
    | None => raise StatisticsError
    end.

(** The statistical median of values without NaN: the middle element of the
    sorted values, the average of the two middle elements when their count is
    even. *)
Definition mediana_estadistica (valores : list numero) : res numero :=
  central (ordenar_estable valores).

(** A median rounded to two decimals; absent where there is none. *)
Definition redondeada (r : res numero) : valor :=
  match r with
  | inr m => VNum (round2 m)
  | inl _ => VNone
  end.


(** A boolean read as the integer 0 or 1; any other number is itself. *)
Definition como_entero (a : numero) : numero :=
  match a with
  | NBool b => NInt (Z.b2z b)
  | _ => a
  end.

(** A record in which every boolean is replaced by the integer 0 or 1. *)
Definition sin_booleanos (d : dict) : dict :=
  map (fun kv => match kv with
                 | (k, VNum a) => (k, VNum (como_entero a))
                 | _ => kv
                 end) d.

(** The sentinel of a missing domain. *)
Definition desconocido : valor := VStr "desconocido".

(** The domain tag of the last record, in buffer order, that carries one; the
    sentinel when none does. *)
Definition dominio_del_ultimo_con_etiqueta (buffer : list dict) : valor :=
  match find (dict_in "dominio") (rev buffer) with
  | Some d => dict_get "dominio" d
  | None => desconocido
  end.

(** A structured record that has a device identifier. *)
Definition registro_con_id (data : valor) : bool :=
  match data with
  | VDict d => dict_in "id_dispositivo" d
  | _ => false
  end.

(** The outcomes of a dispatch. *)
Inductive Outcome : Type :=
| Delivered
| Rejected (code : Z)
| Unreachable.

(** The outcome the specification assigns to an answer of the sink. *)
Definition dispatch (r : respuesta) : Outcome :=
  match r with
  | Response status_code _ =>
      if status_code =? 201 then Delivered else Rejected status_code
  | RequestException _ => Unreachable
  end.

(** The outcome a log record of the node reports. *)
Definition outcome_registrado (ev : evento) : option Outcome :=
  match ev with
  | Log INFO (Enviados _) => Some Delivered
  | Log WARN (ErrorAlEnviar _ code _) => Some (Rejected code)
  | Log ERROR (ErrorDeRed _ _) => Some Unreachable
  | _ => None
  end.

(** The payloads of the requests of a trace, in order. *)
Fixpoint peticiones (tr : list evento) : list datos :=
  match tr with
  | [] => []
  | Post _ x _ :: tr' => x :: peticiones tr'
  | Log _ _ :: tr' => peticiones tr'
  end.

(** The payloads of the non-empty buffers, in dictionary order. *)
Definition resumenes {O : Ordenacion} (bs : list entrada) : list datos :=
  flat_map (fun e => match buffer_de e with
                     | [] => []
                     | _ :: _ => match datos_filtrados (id_de e) (buffer_de e) with
                                 | inr x => [x]
                                 | inl _ => []
                                 end
                     end) bs.

(** An entry whose publication can log the line of what was sent. *)
Definition publicable {O : Ordenacion} (e : entrada) : Prop :=
  buffer_de e = [] \/
  exists x linea, datos_filtrados (id_de e) (buffer_de e) = inr x /\ resumen x = inr linea.

(** Every [int] read into a buffer is one that [float()] accepts. *)
Definition lecturas_convertibles (buffer : list dict) : Prop :=
  forall d c a, In d buffer -> dict_lookup c d = Some (VNum a) -> convertible a.

(** The invariant of the store: one entry per key, each under the key of its
    identifier, and every record of a buffer carries the identifier of that
    buffer's device. *)
Definition registro_de (c : clave) (d : dict) : Prop :=
  hash (dict_get "id_dispositivo" d) = inr c.

Definition entrada_bien_formada (e : entrada) : Prop :=
  hash (id_de e) = inr (clave_de e) /\ Forall (registro_de (clave_de e)) (buffer_de e).

Definition bien_formado (self : NodoCentral) : Prop :=
  NoDup (map clave_de (buffers_por_dispositivo self)) /\
  Forall entrada_bien_formada (buffers_por_dispositivo self).

(** What an iteration of the publication loop may do to an entry: leave it, or
    empty its buffer. *)
Definition misma_o_vacia (e e' : entrada) : Prop :=
  clave_de e' = clave_de e /\ id_de e' = id_de e /\
  (buffer_de e' = buffer_de e \/ buffer_de e' = []).

(** Values that every sort arranges alike: none of them is NaN, or none is
    below the one before it. *)
Definition arreglo_unico (l : list numero) : Prop :=
  Forall sin_nan l \/ Sorted no_mayor l.

(** A buffer whose five fields hold such values. *)
Definition buffer_determinado (buffer : list dict) : Prop :=
  forall c : campo_numerico, arreglo_unico (valores_de buffer (nombre c)).

(** ** Sample data *)

(** The [float] that the literal [n/d] denotes. *)
Definition decimal (n d : positive) : valor :=
  VNum (NFloat (float_de_racional false n d)).

Definition lectura (id_disp : string) (campos : dict) : dict :=
  ("id_dispositivo", VStr id_disp) :: campos.

(** Three readings of ["D1"], the last one tagged ["lab1"]. *)
Definition buffer_D1 : list dict :=
  [lectura "D1" [("temperatura", decimal 201 10)];
   lectura "D1" [("temperatura", decimal 223 10)];
   lectura "D1" [("temperatura", decimal 21 1); ("dominio", VStr "lab1")]].

(** Readings of ["D2"] with a pH in one record only. *)
Definition buffer_D2 : list dict :=
  [lectura "D2" [("temperatura", decimal 19 1)];
   lectura "D2" [("ph", decimal 742 100)];
   lectura "D2" [("ph", VStr "alto")]].

(** Two readings whose temperature is an [int] of 401 digits. *)
Definition enorme : Z := 10 ^ 400.


(** A tagged reading followed by an untagged one. *)
Definition buffer_sin_etiqueta_final : list dict :=
  [lectura "D1" [("dominio", VStr "lab1")];
   lectura "D1" [("temperatura", decimal 21 1)]].

(** A reading whose turbidity is [true]. *)
Definition buffer_booleano : list dict :=
  [lectura "D4" [("turbidez", VNum (NBool true))]].




(** Readings whose turbidity is [true], 5 and 7. *)
Definition buffer_true_5_7 : list dict :=
  [lectura "D4" [("turbidez", VNum (NBool true))];
   lectura "D4" [("turbidez", VNum (NInt 5))];
   lectura "D4" [("turbidez", VNum (NInt 7))]].

(** A [json.loads] that answers [r] whatever the text. *)
Definition responde (r : res valor) : string -> res valor := fun _ => r.

(** A sink that is down for the first request and rejects the others. *)
Definition red_averiada : red :=
  fun n _ => match n with
             | O => RequestException "timeout"
             | S _ => Response 500 "Internal Server Error"
             end.

(** A sink that accepts everything. *)
Definition red_sana : red := fun _ _ => Response 201 "Created".

(** A sink that rejects everything. *)
Definition red_rechaza : red := fun _ _ => Response 500 "Internal Server Error".

Definition entrada_de (id_disp : string) (buffer : list dict) : entrada :=
  {| clave_de := CStr id_disp; id_de := VStr id_disp; buffer_de := buffer |}.

(** A node with two pending devices and one already emptied. *)
Definition nodo_ejemplo : NodoCentral :=
  {| buffers_por_dispositivo :=
       [entrada_de "D1" buffer_D1; entrada_de "D0" []; entrada_de "D2" buffer_D2] |}.

(** A node whose only reading is an [int] that [float()] rejects. *)
Definition nodo_enorme : NodoCentral :=
  {| buffers_por_dispositivo :=
       [entrada_de "D3" [lectura "D3" [("temperatura", VNum (NInt enorme))]]] |}.

(** ** Runs of the node *)

(** What the executor delivers to the node: a message of the topic, or a tick
    of the timer at a minute, with the network of that moment. *)
Inductive accion : Type :=
| Mensaje (msg : string)
| Tic (minuto : Z) (net : red).

Section Ejecucion.

Context {O : Ordenacion}.
Variable json_loads : string -> res valor.

(** The node after a sequence of messages. *)
Definition recibir_lista (msgs : list string) (self : NodoCentral) : NodoCentral :=
  fold_left (fun s msg => fst (listener_callback json_loads s msg)) msgs self.

(** [rclpy.spin(nodo)]: the callbacks run one after another; an exception
    that escapes a callback ends the spin. *)
Fixpoint ejecutar (acciones : list accion) (self : NodoCentral)
  : NodoCentral * option excepcion :=
  match acciones with
  | [] => (self, None)
  | Mensaje msg :: resto =>
      ejecutar resto (fst (listener_callback json_loads self msg))
  | Tic minuto net :: resto =>
      let out := publicar_datos self minuto net in
      match propagada out with
      | Some ex => (estado out, Some ex)
      | None => ejecutar resto (estado out)
      end
  end.

(** A message that parses to the record [d], whose identifier is true and is
    the key [c]. *)
Definition llega (c : clave) (msg : string) (d : dict) : Prop :=
  json_loads msg = inr (VDict d) /\
  verdadero (dict_get "id_dispositivo" d) = true /\
  hash (dict_get "id_dispositivo" d) = inr c.

End Ejecucion.

(** What [buffers_por_dispositivo[c]] reads: the buffer of the key, empty for
    a key that is not there. *)
Definition buffer_actual (c : clave) (self : NodoCentral) : list dict :=
  match buscar c (buffers_por_dispositivo self) with
  | Some b => b
  | None => []
  end.

(** Every [int] read into a buffer is below [2^53] in absolute value. *)
Definition lecturas_pequenas (buffer : list dict) : Prop :=
  forall d c z, In d buffer -> dict_lookup c d = Some (VNum (NInt z)) ->
                Z.abs z < 2 ^ 53.

(** The values strictly below and strictly above [m]. *)
Definition por_debajo (m : numero) (l : list numero) : list numero :=
  filter (fun a => menor a m) l.

Definition por_encima (m : numero) (l : list numero) : list numero :=
  filter (fun a => menor m a) l.

(** The order of exact values; NaN, which has none, is not ranked. *)
Definition magnitud_le (x y : option magnitud) : Prop :=
  match x, y with
  | Some a, Some b => magnitud_ltb b a = false
  | _, _ => False
  end.

(** A [json.loads] for three messages of ["D1"]; any other text is not JSON. *)
Definition json_D1 (msg : string) : res valor :=
  if String.eqb msg "m1" then inr (VDict (lectura "D1" [("temperatura", decimal 201 10)]))
  else if String.eqb msg "m2" then inr (VDict (lectura "D1" [("temperatura", decimal 223 10)]))
  else if String.eqb msg "m3"
       then inr (VDict (lectura "D1" [("temperatura", decimal 21 1); ("dominio", VStr "lab1")]))
  else inl JSONDecodeError.

(** A node whose only device read an [int]. *)
Definition nodo_entero : NodoCentral :=
  {| buffers_por_dispositivo :=
       [{| clave_de := CStr "D5"; id_de := VStr "D5";
           buffer_de := [[("luz", VNum (NInt 300))]] |}] |}.

(** ** Facts about the Python model *)

Section Orden.

Lemma magnitud_ltb_asim (x y : magnitud) :
  magnitud_ltb x y = true -> magnitud_ltb y x = false.
Proof.
  destruct x, y; simpl; try congruence.
  intros H. apply Z.ltb_lt in H. apply Z.ltb_ge. lia.
Qed.

Lemma menor_asim (a b : numero) : menor a b = true -> menor b a = false.
Proof.
  unfold menor.
  destruct (magnitud_de a) as [x|], (magnitud_de b) as [y|]; try congruence.
  apply magnitud_ltb_asim.
Qed.

Lemma insertar_perm (x : numero) (l : list numero) :
  Permutation (insertar x l) (x :: l).
Proof.
  induction l as [|y l IH]; simpl.
  - apply Permutation_refl.
  - destruct (menor y x).
    + eapply perm_trans; [apply perm_skip, IH | apply perm_swap].
    + apply Permutation_refl.
Qed.

Lemma ordenar_estable_perm (l : list numero) : Permutation (ordenar_estable l) l.
Proof.
  induction l as [|x l IH]; simpl.
  - constructor.
  - eapply perm_trans; [apply insertar_perm | apply perm_skip, IH].
Qed.

Lemma ordenar_estable_length (l : list numero) :
  List.length (ordenar_estable l) = List.length l.
Proof. apply Permutation_length, ordenar_estable_perm. Qed.

Lemma insertar_Sorted (x : numero) (l : list numero) :
  Sorted no_mayor l -> Sorted no_mayor (insertar x l).
Proof.
  induction l as [|y l IH]; simpl; intros Hs.
  - repeat constructor.
  - destruct (menor y x) eqn:Hyx.
    + inversion Hs as [|? ? Hl Hhd]; subst.
      constructor; [apply IH, Hl|].
      destruct l as [|z l]; simpl.
      * constructor. unfold no_mayor. now apply menor_asim.
      * destruct (menor z x); constructor.
        -- now inversion Hhd.
        -- unfold no_mayor. now apply menor_asim.
    + constructor; [exact Hs|]. constructor. exact Hyx.
Qed.

Lemma ordenar_estable_Sorted (l : list numero) : Sorted no_mayor (ordenar_estable l).
Proof.
  induction l as [|x l IH]; simpl; [constructor | now apply insertar_Sorted].
Qed.

Lemma ordenar_estable_fijo (l : list numero) :
  Sorted no_mayor l -> ordenar_estable l = l.
Proof.
  induction 1 as [|x l Hl IH Hhd]; simpl; [reflexivity|].
  rewrite IH. destruct Hhd as [|y l' Hxy]; simpl; [reflexivity|].
  unfold no_mayor in Hxy. now rewrite Hxy.
Qed.

Lemma ordenar_estable_idem (l : list numero) :
  ordenar_estable (ordenar_estable l) = ordenar_estable l.
Proof. apply ordenar_estable_fijo, ordenar_estable_Sorted. Qed.

End Orden.

Section OrdenTotal.

Lemma magnitud_ltb_trans_neg (x y z : magnitud) :
  magnitud_ltb y x = false -> magnitud_ltb z y = false -> magnitud_ltb z x = false.
Proof.
  destruct x, y, z; simpl; try congruence.
  intros H1 H2. apply Z.ltb_ge in H1, H2. apply Z.ltb_ge. lia.
Qed.

Lemma no_mayor_trans (a b c : numero) :
  sin_nan b -> no_mayor a b -> no_mayor b c -> no_mayor a c.
Proof.
  unfold sin_nan, no_mayor, menor. intros Hb.
  destruct (magnitud_de a) as [x|], (magnitud_de b) as [y|],
           (magnitud_de c) as [z|]; try congruence.
  apply magnitud_ltb_trans_neg.
Qed.

Lemma insertar_StronglySorted (x : numero) (l : list numero) :
  Forall sin_nan l ->
  StronglySorted no_mayor l -> StronglySorted no_mayor (insertar x l).
Proof.
  induction l as [|y l IH]; simpl; intros Hn Hs.
  - repeat constructor.
  - inversion Hs as [|? ? Hl Hall]; subst.
    inversion Hn as [|? ? Hy Hnl]; subst.
    destruct (menor y x) eqn:Hyx.
    + constructor; [now apply IH|].
      apply (Permutation_Forall (Permutation_sym (insertar_perm x l))).
      constructor; [|exact Hall]. unfold no_mayor. now apply menor_asim.
    + constructor; [exact Hs|]. constructor; [exact Hyx|].
      apply Forall_forall. intros z Hz.
      apply (no_mayor_trans x y z Hy Hyx).
      now apply (proj1 (Forall_forall _ _) Hall).
Qed.

Lemma ordenar_estable_conserva_sin_nan (l : list numero) :
  Forall sin_nan l -> Forall sin_nan (ordenar_estable l).
Proof.
  intros H. apply (Permutation_Forall (Permutation_sym (ordenar_estable_perm l)) H).
Qed.

(** On values without NaN the stable order is non-decreasing: no element is
    above a later one. *)
Lemma ordenar_estable_StronglySorted (l : list numero) :
  Forall sin_nan l -> StronglySorted no_mayor (ordenar_estable l).
Proof.
  induction l as [|x l IH]; simpl; intros Hn.
  - constructor.
  - inversion Hn; subst.
    apply insertar_StronglySorted;
      [now apply ordenar_estable_conserva_sin_nan | now apply IH].
Qed.

End OrdenTotal.

(** What the contract of [sorted] gives for every sort. *)
Section Contrato.

Context {O : Ordenacion}.

Lemma sorted_perm (l : list numero) : Permutation (sorted l) l.
Proof. apply sorted_permutacion. Qed.


Lemma sorted_conserva_sin_nan (l : list numero) :
  Forall sin_nan l -> Forall sin_nan (sorted l).
Proof.
  intros H. apply (Permutation_Forall (Permutation_sym (sorted_perm l)) H).
Qed.

(** On values without NaN, [sorted] returns them in non-decreasing order. *)
Lemma sorted_StronglySorted (l : list numero) :
  Forall sin_nan l -> StronglySorted no_mayor (sorted l).
Proof.
  intros H. rewrite (sorted_sin_nan l H). now apply ordenar_estable_StronglySorted.
Qed.

(** Sorting what is sorted changes nothing, on values without NaN and on a
    list that already has no element below the one before it. *)
Lemma sorted_dos_veces_sin_nan (l : list numero) :
  Forall sin_nan l -> sorted (sorted l) = ordenar_estable l.
Proof.
  intros H. rewrite (sorted_sin_nan l H).
  rewrite (sorted_sin_nan _ (ordenar_estable_conserva_sin_nan l H)).
  apply ordenar_estable_idem.
Qed.

Lemma sorted_dos_veces_creciente (l : list numero) :
  Sorted no_mayor l -> sorted (sorted l) = l.
Proof.
  intros H. rewrite (sorted_creciente l H). now apply sorted_creciente.
Qed.

Lemma sorted_dos_veces_perm (l : list numero) : Permutation (sorted (sorted l)) l.
Proof. eapply perm_trans; apply sorted_perm. Qed.

End Contrato.

Section IEEE.

Lemma digits2_pos_size (p : positive) : digits2_pos p = Pos.size p.
Proof. induction p; simpl; congruence. Qed.

Lemma mantisa_cotas (m : positive) :
  2 ^ Zpos (digits2_pos m) <= 2 * Zpos m /\ Zpos m < 2 ^ Zpos (digits2_pos m).
Proof.
  rewrite digits2_pos_size. split.
  - pose proof (Pos.size_le m) as H.
    change (2 * Zpos m) with (Zpos (m~0)). rewrite <- Pos2Z.inj_pow. exact H.
  - pose proof (Pos.size_gt m) as H. rewrite <- Pos2Z.inj_pow. exact H.
Qed.

Lemma bounded_cotas (m : positive) (e : Z) :
  bounded prec emax m e = true ->
  - escala <= e /\ Zpos (digits2_pos m) <= 53 /\
  (- escala < e -> Zpos (digits2_pos m) = 53).
Proof.
  unfold bounded, canonical_mantissa, fexp, emin, prec, emax, escala.
  intros H. apply andb_true_iff in H. destruct H as [H _].
  apply Z.eqb_eq in H. lia.
Qed.

Lemma escalado_lt (m1 m2 : positive) (e1 e2 : Z) :
  bounded prec emax m1 e1 = true -> bounded prec emax m2 e2 = true ->
  e1 < e2 ->
  Z.shiftl (Zpos m1) (e1 + escala) < Z.shiftl (Zpos m2) (e2 + escala).
Proof.
  intros H1 H2 Hlt.
  destruct (bounded_cotas m1 e1 H1) as (Hk & Hd1 & _).
  destruct (bounded_cotas m2 e2 H2) as (_ & _ & Hd2).
  unfold escala in *.
  specialize (Hd2 ltac:(lia)).
  destruct (mantisa_cotas m1) as (_ & Hm1).
  destruct (mantisa_cotas m2) as (Hm2 & _).
  rewrite Hd2 in Hm2.
  assert (Hp : Zpos m1 < 2 ^ 53).
  { eapply Z.lt_le_trans; [exact Hm1|]. apply Z.pow_le_mono_r; lia. }
  rewrite !Z.shiftl_mul_pow2 by lia.
  replace (e2 + 1074) with ((e1 + 1074) + (e2 - e1)) by lia.
  rewrite (Z.pow_add_r 2 (e1 + 1074) (e2 - e1)) by lia.
  assert (0 < 2 ^ (e1 + 1074)) by (apply Z.pow_pos_nonneg; lia).
  assert (2 ^ 1 <= 2 ^ (e2 - e1)) by (apply Z.pow_le_mono_r; lia).
  change (2 ^ 1) with 2 in *.
  set (P := 2 ^ (e1 + 1074)) in *. set (Q := 2 ^ (e2 - e1)) in *.
  assert (S1 : Zpos m1 * P < 2 ^ 53 * P) by (apply Z.mul_lt_mono_pos_r; lia).
  assert (S2 : 2 ^ 53 * P <= 2 * Zpos m2 * P) by (apply Z.mul_le_mono_nonneg_r; lia).
  assert (S3 : Zpos m2 * P * 2 <= Zpos m2 * P * Q).
  { apply Z.mul_le_mono_nonneg_l; [|lia]. apply Z.mul_nonneg_nonneg; lia. }
  lia.
Qed.


Lemma escalado_compare (m1 m2 : positive) (e1 e2 : Z) :
  bounded prec emax m1 e1 = true -> bounded prec emax m2 e2 = true ->
  (Z.shiftl (Zpos m1) (e1 + escala) ?= Z.shiftl (Zpos m2) (e2 + escala)) =
  match e1 ?= e2 with
  | Lt => Lt
  | Gt => Gt
  | Eq => Pos.compare_cont Eq m1 m2
  end.
Proof.
  intros H1 H2. destruct (e1 ?= e2) eqn:E.
  - apply Z.compare_eq in E. subst e2.
    destruct (bounded_cotas m1 e1 H1) as (Hk & _). unfold escala in *.
    rewrite !Z.shiftl_mul_pow2 by lia.
    assert (0 < 2 ^ (e1 + 1074)) by (apply Z.pow_pos_nonneg; lia).
    change (Pos.compare_cont Eq m1 m2) with (Zpos m1 ?= Zpos m2).
    destruct (Zpos m1 ?= Zpos m2) eqn:C.
    + apply Z.compare_eq in C. rewrite C. apply Z.compare_refl.
    + apply Z.compare_lt_iff. apply Z.compare_lt_iff in C.
      now apply Z.mul_lt_mono_pos_r.
    + apply Z.compare_gt_iff. apply Z.compare_gt_iff in C.
      now apply Z.mul_lt_mono_pos_r.
  - apply Z.compare_lt_iff. apply escalado_lt; [assumption..|]. now apply Z.compare_lt_iff.
  - apply Z.compare_gt_iff. apply escalado_lt; [assumption..|]. now apply Z.compare_gt_iff.
Qed.

Lemma escalado_pos (m : positive) (e : Z) :
  bounded prec emax m e = true -> 0 < Z.shiftl (Zpos m) (e + escala).
Proof.
  intros H. destruct (bounded_cotas m e H) as (Hk & _). unfold escala in *.
  rewrite Z.shiftl_mul_pow2 by lia.
  apply Z.mul_pos_pos; [lia | apply Z.pow_pos_nonneg; lia].
Qed.

(** On binary64 values the order of the model is the IEEE comparison. *)
Lemma menor_SFltb (f g : spec_float) :
  valid_binary prec emax f = true -> valid_binary prec emax g = true ->
  menor (NFloat f) (NFloat g) = SFltb f g.
Proof.
  destruct f as [s1|s1| |s1 m1 e1], g as [s2|s2| |s2 m2 e2];
    unfold menor, SFltb; simpl; intros Hf Hg;
    try reflexivity;
    try (destruct s1; reflexivity); try (destruct s2; reflexivity);
    try (destruct s1, s2; reflexivity).
  - pose proof (escalado_pos m2 e2 Hg). destruct s2; simpl.
    + apply Z.ltb_ge. lia.
    + apply Z.ltb_lt. lia.
  - pose proof (escalado_pos m1 e1 Hf). destruct s1; simpl.
    + apply Z.ltb_lt. lia.
    + apply Z.ltb_ge. lia.
  - pose proof (escalado_pos m1 e1 Hf). pose proof (escalado_pos m2 e2 Hg).
    pose proof (escalado_compare m1 m2 e1 e2 Hf Hg) as Hc.
    destruct s1, s2; simpl.
    + rewrite Z.ltb_compare, Z.compare_opp, Z.compare_antisym, Hc.
      destruct (e1 ?= e2); try reflexivity.
    + apply Z.ltb_lt. lia.
    + apply Z.ltb_ge. lia.
    + rewrite Z.ltb_compare, Hc.
      destruct (e1 ?= e2); try reflexivity.
Qed.

End IEEE.

(** The builtins on a few inputs, as Python evaluates them. *)

Example round_2_675 :
  round2_float (float_de_racional false 2675 1000) = float_de_racional false 267 100.
Proof. vm_compute. reflexivity. Qed.

Example round_0_125 :
  round2_float (float_de_racional false 125 1000) = float_de_racional false 12 100.
Proof. vm_compute. reflexivity. Qed.

Example round_0_375 :
  round2_float (float_de_racional false 375 1000) = float_de_racional false 38 100.
Proof. vm_compute. reflexivity. Qed.

Example float_2_1024 : a_float (2 ^ 1024) = inl OverflowError.
Proof. vm_compute. reflexivity. Qed.

Example float_max : exists f, a_float (2 ^ 1024 - 2 ^ 971) = inr f.
Proof. eexists. vm_compute. reflexivity. Qed.

Example formato_enorme : formato_seguro (VNum (NInt enorme)) = inl OverflowError.
Proof. vm_compute. reflexivity. Qed.

Section Mediana.

Context {O : Ordenacion}.

Lemma par_mod (n : nat) : Nat.even n = negb (Nat.eqb (Nat.modulo n 2) 1).
Proof.
  destruct (Nat.even n) eqn:E.
  - apply Nat.even_spec in E. destruct E as [k ->].
    rewrite Nat.mul_comm, Nat.Div0.mod_mul. reflexivity.
  - assert (Ho : Nat.odd n = true) by (rewrite <- Nat.negb_even, E; reflexivity).
    apply Nat.odd_spec in Ho. destruct Ho as [k ->].
    rewrite Nat.add_comm, Nat.mul_comm, Nat.Div0.mod_add. reflexivity.
Qed.

Lemma mitad_menor (n : nat) : (0 < n)%nat -> (Nat.div n 2 < n)%nat.
Proof. intros H. apply Nat.div_lt; lia. Qed.

Lemma mitad_positiva (n : nat) :
  (0 < n)%nat -> Nat.even n = true -> (0 < Nat.div n 2)%nat.
Proof.
  intros H E. apply Nat.even_spec in E. destruct E as [k ->].
  rewrite Nat.mul_comm, Nat.div_mul by lia. lia.
Qed.

Lemma nth_error_en_rango {A : Type} (l : list A) (i : nat) :
  (i < List.length l)%nat -> exists a, nth_error l i = Some a.
Proof.
  intros H. destruct (nth_error l i) as [a|] eqn:E; [now exists a|].
  apply nth_error_None in E. lia.
Qed.

(** [statistics.median] returns the middle of what [sorted] makes of its
    argument. *)
Lemma median_central (data : list numero) : median data = central (sorted data).
Proof.
  unfold median, central.
  set (vs := sorted data). set (n := List.length vs).
  destruct vs as [|x l] eqn:Hvs; [reflexivity|].
  assert (Hn : (0 < n)%nat) by (subst n; simpl; lia).
  replace (Nat.eqb n 0) with false by (symmetry; apply Nat.eqb_neq; lia).
  rewrite par_mod.
  destruct (Nat.eqb (Nat.modulo n 2) 1) eqn:Hm; simpl negb; cbv iota.
  - destruct (nth_error_en_rango (x :: l) (Nat.div n 2)) as [m Hmid].
    { now apply mitad_menor. }
    unfold indice. now rewrite Hmid.
  - assert (He : Nat.even n = true) by (rewrite par_mod, Hm; reflexivity).
    pose proof (mitad_positiva n Hn He) as Hp.
    pose proof (mitad_menor n Hn) as Hlt.
    destruct (nth_error_en_rango (x :: l) (Nat.div n 2 - 1)) as [a Ha].
    { fold n. lia. }
    destruct (nth_error_en_rango (x :: l) (Nat.div n 2)) as [b Hb].
    { exact Hlt. }
    unfold indice. rewrite Ha, Hb. reflexivity.
Qed.

Lemma a_float_error (z : Z) (e : excepcion) :
  a_float z = inl e -> e = OverflowError.
Proof.
  unfold a_float.
  destruct (binary_normalize prec emax z 0 false); unfold ret, raise; congruence.
Qed.








(** [calcular_mediana] in every case: the middle of the values as [sorted],
    applied twice, leaves them. *)
Lemma calcular_mediana_central (buffer : list dict) (c : string) :
  calcular_mediana buffer c =
  match valores_de buffer c with
  | [] => VNone
  | _ :: _ =>
      match central (sorted (sorted (valores_de buffer c))) with
      | inr m => VNum m
      | inl _ => VNone
      end
  end.
Proof.
  unfold calcular_mediana. rewrite median_central. reflexivity.
Qed.

(** On values without NaN [statistics.median(sorted(valores))] is the
    statistical median: sorting twice changes nothing. *)
Lemma calcular_mediana_eq (buffer : list dict) (c : string) :
  Forall sin_nan (valores_de buffer c) ->
  calcular_mediana buffer c =
  match valores_de buffer c with
  | [] => VNone
  | _ :: _ =>
      match mediana_estadistica (valores_de buffer c) with
      | inr m => VNum m
      | inl _ => VNone
      end
  end.
Proof.
  intros Hn. rewrite calcular_mediana_central.
  now rewrite (sorted_dos_veces_sin_nan _ Hn).
Qed.

End Mediana.

(** [statistics.median] on a few inputs, as Python evaluates them. *)

Example median_3_1_2 {O : Ordenacion} : median [NInt 3; NInt 1; NInt 2] = inr (NInt 2).
Proof.
  rewrite median_central, sorted_sin_nan by (repeat constructor; discriminate).
  vm_compute. reflexivity.
Qed.

Example median_true_2 {O : Ordenacion} :
  median [NInt 2; NBool true] = inr (NFloat (float_de_racional false 3 2)).
Proof.
  rewrite median_central, sorted_sin_nan by (repeat constructor; discriminate).
  vm_compute. reflexivity.
Qed.

Example median_int_float {O : Ordenacion} :
  median [NFloat (float_de_racional false 5 2); NInt 1] =
  inr (NFloat (float_de_racional false 7 4)).
Proof.
  rewrite median_central, sorted_sin_nan by (repeat constructor; discriminate).
  vm_compute. reflexivity.
Qed.

(** With a NaN in the middle of values that are otherwise in order, the list
    is one ascending run for [<] and the median is the NaN. *)
Example median_nan {O : Ordenacion} :
  median [NFloat (float_de_racional false 1 1); NFloat S754_nan;
          NFloat (float_de_racional false 2 1)] = inr (NFloat S754_nan).
Proof.
  rewrite median_central, sorted_creciente by (repeat constructor).
  reflexivity.
Qed.

(** ** The reducer *)

Section Reductor.

Context {O : Ordenacion}.

Lemma ultimo_app (buffer : list dict) (d : dict) : ultimo (buffer ++ [d]) = ret d.
Proof. unfold ultimo. rewrite rev_unit. reflexivity. Qed.

Lemma ultimo_no_vacio (buffer : list dict) :
  buffer <> [] -> exists d, ultimo buffer = ret d.
Proof.
  intros H. destruct (exists_last H) as (l & d & ->).
  exists d. apply ultimo_app.
Qed.

Lemma datos_filtrados_campo (id_disp : valor) (buffer : list dict) (x : datos)
      (c : campo_numerico) :
  datos_filtrados id_disp buffer = inr x ->
  campo c x = redondear (calcular_mediana buffer (nombre c)).
Proof.
  unfold datos_filtrados. destruct (ultimo buffer) as [e|d]; simpl; [discriminate|].
  intros H. injection H as <-. destruct c; reflexivity.
Qed.

Lemma valores_de_cons (d : dict) (buffer : list dict) (c : string) :
  valores_de (d :: buffer) c =
  match dict_lookup c d with
  | Some (VNum a) => a :: valores_de buffer c
  | _ => valores_de buffer c
  end.
Proof.
  unfold valores_de. simpl. unfold dict_in, dict_get, dict_get_or.
  destruct (dict_lookup c d) as [[]|]; reflexivity.
Qed.

Lemma valores_de_app (b1 b2 : list dict) (c : string) :
  valores_de (b1 ++ b2) c = valores_de b1 c ++ valores_de b2 c.
Proof. unfold valores_de. apply flat_map_app. Qed.


Lemma valores_de_In (buffer : list dict) (c : string) (a : numero) :
  In a (valores_de buffer c) <->
  exists d, In d buffer /\ dict_lookup c d = Some (VNum a).
Proof.
  induction buffer as [|d0 buffer IH].
  - simpl. split; [intros [] | intros (d & [] & _)].
  - rewrite valores_de_cons. split.
    + intros Hin.
      assert (Hcases : dict_lookup c d0 = Some (VNum a) \/ In a (valores_de buffer c)).
      { destruct (dict_lookup c d0) as [[]|]; auto.
        destruct Hin as [<-|Hin]; auto. }
      destruct Hcases as [Hl|Hin'].
      * exists d0. split; [now left | exact Hl].
      * apply IH in Hin'. destruct Hin' as (d & Hd & Hl).
        exists d. split; [now right | exact Hl].
    + intros (d & [<-|Hd] & Hl).
      * rewrite Hl. now left.
      * assert (Hin : In a (valores_de buffer c)) by (apply IH; now exists d).
        destruct (dict_lookup c d0) as [[]|]; auto. now right.
Qed.

Lemma datos_filtrados_no_vacio (id_disp : valor) (buffer : list dict) :
  buffer <> [] -> exists x, datos_filtrados id_disp buffer = inr x.
Proof.
  intros Hne. destruct (ultimo_no_vacio buffer Hne) as [d Hd].
  unfold datos_filtrados. rewrite Hd. simpl. eexists. reflexivity.
Qed.

(** Where the values have no NaN, or none of them is below the one before
    it, every sort leaves them as the stable sort does, and the median is the
    same for every sort. *)
Lemma calcular_mediana_determinada (buffer : list dict) (c : string) :
  Forall sin_nan (valores_de buffer c) \/ Sorted no_mayor (valores_de buffer c) ->
  calcular_mediana buffer c = calcular_mediana (O := ordenacion_estable) buffer c.
Proof.
  intros H. rewrite !calcular_mediana_central. destruct H as [H|H].
  - now rewrite (sorted_dos_veces_sin_nan (O := O) _ H),
      (sorted_dos_veces_sin_nan (O := ordenacion_estable) _ H).
  - now rewrite (sorted_dos_veces_creciente (O := O) _ H),
      (sorted_dos_veces_creciente (O := ordenacion_estable) _ H).
Qed.

Lemma datos_filtrados_determinado (id_disp : valor) (buffer : list dict) :
  buffer_determinado buffer ->
  datos_filtrados id_disp buffer =
  datos_filtrados (O := ordenacion_estable) id_disp buffer.
Proof.
  intros H. unfold datos_filtrados.
  rewrite (calcular_mediana_determinada buffer "temperatura" (H Temperatura)),
    (calcular_mediana_determinada buffer "ph" (H Ph)),
    (calcular_mediana_determinada buffer "turbidez" (H Turbidez)),
    (calcular_mediana_determinada buffer "oxigeno" (H Oxigeno)),
    (calcular_mediana_determinada buffer "luz" (H Luz)).
  reflexivity.
Qed.

End Reductor.

(** Scenario of the specification: temperatures 20.1, 22.3 and 21.0 with the
    last record tagged ["lab1"] give temperature 21.00 and domain ["lab1"]. *)
Example escenario_D1 {O : Ordenacion} :
  datos_filtrados (VStr "D1") buffer_D1 =
  inr {| id_dispositivo := VStr "D1"; dominio := VStr "lab1";
         temperatura := decimal 21 1; ph := VNone; turbidez := VNone;
         oxigeno := VNone; luz := VNone |}.
Proof.
  rewrite datos_filtrados_determinado; [vm_compute; reflexivity|].
  intros c. left. destruct c; vm_compute; repeat constructor; discriminate.
Qed.

(** Scenario of the specification: a pH present in one record only, 7.42, is
    the summary's pH. *)
Example escenario_D2 {O : Ordenacion} :
  exists x, datos_filtrados (VStr "D2") buffer_D2 = inr x /\ ph x = decimal 742 100.
Proof.
  rewrite datos_filtrados_determinado; [eexists; split; vm_compute; reflexivity|].
  intros c. left. destruct c; vm_compute; repeat constructor; discriminate.
Qed.




(** C2, as stated, fails: when a tagged record is followed by an untagged one
    the summary's domain is the sentinel, not the tag of the last record that
    carries one. *)
Lemma C2_counterexample_last_untagged :
  dominio_del_ultimo_con_etiqueta buffer_sin_etiqueta_final = VStr "lab1" /\
  forall O : Ordenacion,
  exists x, datos_filtrados (VStr "D1") buffer_sin_etiqueta_final = inr x /\
            dominio x = desconocido /\
            dominio x <> dominio_del_ultimo_con_etiqueta buffer_sin_etiqueta_final.
Proof.
  split; [reflexivity|]. intros O. eexists. split; [reflexivity|].
  split; [reflexivity|]. vm_compute. discriminate.
Qed.

(** C2 (amended): for every non-empty buffer the summary's domain is what the
    last record of the buffer holds under ["dominio"], and the sentinel when
    that last record has no such key, whatever the earlier records carry.
    When the last record carries a tag this is the tag of the last record
    that carries one. *)
Theorem C2_domain_of_last_record {O : Ordenacion} (id_disp : valor) (buffer : list dict) (d : dict) :
  exists x,
    datos_filtrados id_disp (buffer ++ [d]) = inr x /\
    dominio x = dict_get_or "dominio" desconocido d /\
    (dict_in "dominio" d = false -> dominio x = desconocido) /\
    (dict_in "dominio" d = true ->
     dominio x = dominio_del_ultimo_con_etiqueta (buffer ++ [d])).
Proof.
  unfold datos_filtrados. rewrite ultimo_app. simpl. eexists.
  split; [reflexivity|]. simpl. split; [reflexivity|].
  unfold dominio_del_ultimo_con_etiqueta. rewrite rev_unit.
  cbn [find]. unfold dict_in, dict_get, dict_get_or.
  destruct (dict_lookup "dominio" d) as [v|] eqn:Hl;
    split; intros H; try discriminate; try reflexivity.
  now rewrite Hl.
Qed.

Lemma C2_domain_of_last_record_witness :
  exists x,
    datos_filtrados (VStr "D1") buffer_D1 = inr x /\ dominio x = VStr "lab1" /\
    dominio x = dominio_del_ultimo_con_etiqueta buffer_D1.
Proof.
  destruct (C2_domain_of_last_record (VStr "D1")
              [lectura "D1" [("temperatura", decimal 201 10)];
               lectura "D1" [("temperatura", decimal 223 10)]]
              (lectura "D1" [("temperatura", decimal 21 1); ("dominio", VStr "lab1")]))
    as (x & Hx & Hd & _ & Ht).
  exists x. split; [exact Hx|]. split; [exact Hd|]. apply Ht. reflexivity.
Defined.

(** C3, as stated, fails: applied to an empty buffer the reducer raises
    [IndexError] at [buffer[-1]] and returns no summary. *)
Lemma C3_counterexample_empty_raises :
  (forall O : Ordenacion, datos_filtrados (VStr "D1") [] = inl IndexError) /\
  (forall O : Ordenacion, ~ exists x, datos_filtrados (VStr "D1") [] = inr x).
Proof.
  split; [reflexivity|]. intros O [x H]. discriminate H.
Qed.

(** C3 (amended): on an empty buffer each of the five medians is absent, but
    building the summary raises [IndexError]; the publication loop never
    applies the reducer to an empty buffer: it skips the entry, which stays as
    it is, without a request and without an exception of its own.  On a
    non-empty buffer the reducer returns a summary. *)
Theorem C3_empty_buffer_skipped {O : Ordenacion} (id_disp : valor) (net : red) (n : nat)
        (e : entrada) (resto : list entrada) (buffer : list dict) :
  (forall c, redondear (calcular_mediana [] (nombre c)) = VNone) /\
  datos_filtrados id_disp [] = inl IndexError /\
  (buffer_de e = [] ->
   estado (bucle net n (e :: resto)) = e :: estado (bucle net n resto) /\
   traza (bucle net n (e :: resto)) = traza (bucle net n resto) /\
   propagada (bucle net n (e :: resto)) = propagada (bucle net n resto)) /\
  (buffer <> [] -> exists x, datos_filtrados id_disp buffer = inr x).
Proof.
  split; [intros c; destruct c; reflexivity|]. split; [reflexivity|]. split.
  - intros He. simpl. rewrite He. simpl. repeat split.
  - intros Hne. destruct (ultimo_no_vacio buffer Hne) as [d Hd].
    unfold datos_filtrados. rewrite Hd. simpl. eexists. reflexivity.
Qed.

Lemma C3_empty_buffer_skipped_witness :
  estado (bucle red_averiada 0 [entrada_de "D0" []]) = [entrada_de "D0" []] /\
  traza (bucle red_averiada 0 [entrada_de "D0" []]) = [] /\
  propagada (bucle red_averiada 0 [entrada_de "D0" []]) = None /\
  exists x, datos_filtrados (VStr "D2") buffer_D2 = inr x.
Proof.
  destruct (C3_empty_buffer_skipped (VStr "D2") red_averiada 0 (entrada_de "D0" [])
              [] buffer_D2) as (_ & _ & Hskip & Hred).
  destruct (Hskip eq_refl) as (H1 & H2 & H3).
  split; [exact H1|]. split; [exact H2|]. split; [exact H3|].
  apply Hred. discriminate.
Defined.

(** ** Booleans among the values *)

Section Booleanos.

Context {O : Ordenacion}.

Lemma menor_como_entero (a b : numero) :
  menor (como_entero a) (como_entero b) = menor a b.
Proof. destruct a, b; reflexivity. Qed.

Lemma promedio_como_entero (a b : numero) :
  promedio (como_entero a) (como_entero b) = promedio a b.
Proof. destruct a, b; reflexivity. Qed.

Lemma round2_como_entero (a : numero) : round2 (como_entero a) = round2 a.
Proof. destruct a; reflexivity. Qed.

Lemma sin_nan_como_entero (l : list numero) :
  Forall sin_nan l -> Forall sin_nan (map como_entero l).
Proof.
  intros H. apply Forall_map. apply (Forall_impl _ (P := sin_nan)); [|exact H].
  intros a Ha. now destruct a.
Qed.

Lemma central_como_entero (s : list numero) :
  redondeada (central (map como_entero s)) = redondeada (central s).
Proof.
  unfold central. rewrite length_map, !nth_error_map.
  destruct (Nat.even (List.length s)).
  - destruct (nth_error s _) as [a|]; [|reflexivity].
    destruct (nth_error s _) as [b|]; [|reflexivity].
    simpl. now rewrite promedio_como_entero.
  - destruct (nth_error s _) as [a|]; [|reflexivity].
    simpl. now rewrite round2_como_entero.
Qed.

Lemma redondear_calcular_mediana (buffer : list dict) (c : string) :
  valores_de buffer c <> [] ->
  redondear (calcular_mediana buffer c) =
  redondeada (central (sorted (sorted (valores_de buffer c)))).
Proof.
  intros Hv. rewrite calcular_mediana_central.
  destruct (valores_de buffer c) as [|a l]; [congruence|].
  destruct (central (sorted (sorted (a :: l)))); reflexivity.
Qed.

Lemma dict_lookup_sin_booleanos (c : string) (d : dict) :
  dict_lookup c (sin_booleanos d) =
  match dict_lookup c d with
  | Some (VNum a) => Some (VNum (como_entero a))
  | r => r
  end.
Proof.
  induction d as [|[k v] d IH]; simpl; [reflexivity|].
  destruct v; simpl; destruct (String.eqb k c); try reflexivity; exact IH.
Qed.

Lemma valores_de_sin_booleanos (buffer : list dict) (c : string) :
  valores_de (map sin_booleanos buffer) c = map como_entero (valores_de buffer c).
Proof.
  induction buffer as [|d buffer IH]; [reflexivity|].
  cbn [map]. rewrite !valores_de_cons, dict_lookup_sin_booleanos, IH.
  destruct (dict_lookup c d) as [[]|]; reflexivity.
Qed.

(** A boolean counts in the median as the integer 0 or 1 counts, with every
    sort and with NaN among the values too. *)
Lemma calcular_mediana_sin_booleanos (buffer : list dict) (c : string) :
  redondear (calcular_mediana (map sin_booleanos buffer) c) =
  redondear (calcular_mediana buffer c).
Proof.
  destruct (valores_de buffer c) as [|a l] eqn:Hv.
  - rewrite !calcular_mediana_central, valores_de_sin_booleanos, Hv. reflexivity.
  - rewrite !redondear_calcular_mediana.
    + rewrite valores_de_sin_booleanos.
      rewrite !(sorted_comparaciones como_entero) by (apply menor_como_entero).
      apply central_como_entero.
    + rewrite Hv. discriminate.
    + rewrite valores_de_sin_booleanos, Hv. discriminate.
Qed.

Lemma mediana_estadistica_como_entero (valores : list numero) :
  redondeada (mediana_estadistica (map como_entero valores)) =
  redondeada (mediana_estadistica valores).
Proof.
  unfold mediana_estadistica.
  rewrite (sorted_comparaciones (Ordenacion := ordenacion_estable) como_entero)
    by (apply menor_como_entero).
  apply central_como_entero.
Qed.

End Booleanos.

(** C10: a field whose value is a boolean passes the numeric-type test and
    enters the median computation with the value 0 or 1.  It is collected at
    the place of its record among the values, not skipped; it is ordered and
    added as the integer 0 or 1; the rounded median of any buffer is the one
    of the same buffer with every boolean replaced by the integer 0 or 1,
    which for values without NaN is the statistical median of the values so
    read; and a buffer whose only value for the field is that boolean yields
    0 or 1, not an absent field. *)
Theorem C10_bool_is_numeric {O : Ordenacion} (buffer b1 b2 : list dict) (d : dict)
        (c : campo_numerico) (b : bool) (a : numero) :
  es_numero (VNum (NBool b)) = true /\
  (dict_lookup (nombre c) d = Some (VNum (NBool b)) ->
   valores_de (b1 ++ d :: b2) (nombre c) =
   valores_de b1 (nombre c) ++ NBool b :: valores_de b2 (nombre c)) /\
  (In d buffer -> dict_lookup (nombre c) d = Some (VNum (NBool b)) ->
   In (NBool b) (valores_de buffer (nombre c))) /\
  menor (NBool b) a = menor (NInt (Z.b2z b)) a /\
  menor a (NBool b) = menor a (NInt (Z.b2z b)) /\
  suma (NBool b) a = suma (NInt (Z.b2z b)) a /\
  redondear (calcular_mediana buffer (nombre c)) =
  redondear (calcular_mediana (map sin_booleanos buffer) (nombre c)) /\
  (valores_de buffer (nombre c) <> [] ->
   Forall sin_nan (valores_de buffer (nombre c)) ->
   redondear (calcular_mediana buffer (nombre c)) =
   match mediana_estadistica (map como_entero (valores_de buffer (nombre c))) with
   | inr m => VNum (round2 m)
   | inl _ => VNone
   end) /\
  (dict_lookup (nombre c) d = Some (VNum (NBool b)) ->
   redondear (calcular_mediana [d] (nombre c)) = VNum (NInt (Z.b2z b))).
Proof.
  split; [reflexivity|]. split.
  { intros Hl. rewrite valores_de_app, valores_de_cons, Hl. reflexivity. }
  split.
  { intros Hd Hl. apply valores_de_In. now exists d. }
  split; [reflexivity|]. split; [reflexivity|]. split; [reflexivity|].
  split; [symmetry; apply calcular_mediana_sin_booleanos|]. split.
  - intros Hv Hn.
    change (redondear (calcular_mediana buffer (nombre c)) =
            redondeada (mediana_estadistica (map como_entero (valores_de buffer (nombre c))))).
    rewrite mediana_estadistica_como_entero, (redondear_calcular_mediana _ _ Hv).
    now rewrite (sorted_dos_veces_sin_nan _ Hn).
  - intros Hl.
    assert (Hv : valores_de [d] (nombre c) = [NBool b]).
    { rewrite valores_de_cons, Hl. reflexivity. }
    rewrite redondear_calcular_mediana by (rewrite Hv; discriminate).
    rewrite Hv, sorted_dos_veces_creciente by (repeat constructor).
    reflexivity.
Qed.

Lemma C10_bool_is_numeric_witness :
  In (NBool true) (valores_de buffer_booleano "turbidez") /\
  redondear (calcular_mediana buffer_booleano "turbidez") = VNum (NInt 1) /\
  valores_de buffer_true_5_7 "turbidez" = [NBool true; NInt 5; NInt 7] /\
  redondear (calcular_mediana buffer_true_5_7 "turbidez") = VNum (NInt 5).
Proof.
  destruct (C10_bool_is_numeric buffer_booleano [] []
              (lectura "D4" [("turbidez", VNum (NBool true))]) Turbidez true (NInt 0))
    as (_ & _ & Hin & _ & _ & _ & _ & _ & Hmed).
  destruct (C10_bool_is_numeric buffer_true_5_7 []
              [lectura "D4" [("turbidez", VNum (NInt 5))];
               lectura "D4" [("turbidez", VNum (NInt 7))]]
              (lectura "D4" [("turbidez", VNum (NBool true))]) Turbidez true (NInt 5))
    as (_ & Hpos & _ & _ & _ & _ & _ & Hest & _).
  split; [apply Hin; [left; reflexivity | reflexivity]|].
  split; [apply Hmed; reflexivity|].
  split; [apply Hpos; reflexivity|].
  cbn [nombre] in Hest. rewrite Hest.
  - vm_compute. reflexivity.
  - discriminate.
  - vm_compute. repeat constructor; discriminate.
Defined.

(** ** Reception of a message *)

Section Recepcion.

Variable json_loads : string -> res valor.

Lemma clave_eqb_eq (x y : clave) : clave_eqb x y = true <-> x = y.
Proof.
  unfold clave_eqb. destruct (clave_eq_dec x y); split; congruence.
Qed.

Lemma clave_eqb_refl (x : clave) : clave_eqb x x = true.
Proof. now apply clave_eqb_eq. Qed.

Lemma clave_eqb_neq (x y : clave) : x <> y -> clave_eqb x y = false.
Proof.
  intros H. destruct (clave_eqb x y) eqn:E; [|reflexivity].
  apply clave_eqb_eq in E. contradiction.
Qed.

Lemma buscar_agregar_misma (c : clave) (id_disp : valor) (data : dict)
      (bs : list entrada) :
  buscar c (agregar c id_disp data bs) =
  Some (match buscar c bs with Some b => b | None => [] end ++ [data]).
Proof.
  induction bs as [|e bs IH]; simpl.
  - now rewrite clave_eqb_refl.
  - destruct (clave_eqb (clave_de e) c) eqn:E; simpl; rewrite E; [reflexivity | exact IH].
Qed.

Lemma buscar_agregar_otra (c c' : clave) (id_disp : valor) (data : dict)
      (bs : list entrada) :
  c' <> c -> buscar c' (agregar c id_disp data bs) = buscar c' bs.
Proof.
  intros Hneq. induction bs as [|e bs IH]; simpl.
  - rewrite clave_eqb_neq; [reflexivity | congruence].
  - destruct (clave_eqb (clave_de e) c) eqn:E; simpl.
    + apply clave_eqb_eq in E.
      rewrite !clave_eqb_neq by congruence. reflexivity.
    + now rewrite IH.
Qed.

(** The handlers of [listener_callback] only log: the node is the one the
    body of the [try] left. *)
Lemma listener_callback_estado (self : NodoCentral) (msg : string) :
  fst (listener_callback json_loads self msg) = fst (recibir json_loads self msg).
Proof.
  unfold listener_callback.
  destruct (recibir json_loads self msg) as [self' [e|evs]]; [destruct e|]; reflexivity.
Qed.

Lemma recibir_descarta (self : NodoCentral) (msg : string) :
  (forall d c, json_loads msg = inr (VDict d) ->
               verdadero (dict_get "id_dispositivo" d) = true ->
               hash (dict_get "id_dispositivo" d) = inr c -> False) ->
  fst (recibir json_loads self msg) = self.
Proof.
  intros H. unfold recibir.
  destruct (json_loads msg) as [e|v]; [reflexivity|].
  destruct v; try reflexivity.
  destruct (verdadero (dict_get "id_dispositivo" d)) eqn:Hv; [|reflexivity].
  destruct (hash (dict_get "id_dispositivo" d)) as [e|c] eqn:Hh; [reflexivity|].
  exfalso. now apply (H d c).
Qed.

Lemma recibir_agrega (self : NodoCentral) (msg : string) (d : dict) (c : clave) :
  json_loads msg = inr (VDict d) ->
  verdadero (dict_get "id_dispositivo" d) = true ->
  hash (dict_get "id_dispositivo" d) = inr c ->
  fst (recibir json_loads self msg) =
  {| buffers_por_dispositivo :=
       agregar c (dict_get "id_dispositivo" d) d (buffers_por_dispositivo self) |}.
Proof.
  intros Hj Hv Hh. unfold recibir. rewrite Hj, Hv, Hh. reflexivity.
Qed.

End Recepcion.

(** A record is in its buffer before its log line is formatted: one whose
    temperature is too large an [int] is kept, and the error is logged. *)
Example recepcion_enorme :
  listener_callback
    (responde (inr (VDict (lectura "D3" [("temperatura", VNum (NInt enorme))]))))
    init "msg" =
  (nodo_enorme, [Log ERROR (ErrorProcesando OverflowError)]).
Proof. vm_compute. reflexivity. Qed.

(** C5, as stated, fails: a structured record that has an [id_dispositivo],
    the empty string, is not appended to any buffer. *)
Lemma C5_counterexample_empty_id :
  registro_con_id (VDict (lectura "" [("temperatura", decimal 21 1)])) = true /\
  fst (listener_callback
         (responde (inr (VDict (lectura "" [("temperatura", decimal 21 1)]))))
         init "msg") = init.
Proof. split; reflexivity. Qed.

(** C5 (amended): [listener_callback] always returns.  The node is left as it
    was when the text is not JSON, when the object is not a dictionary, when
    its [id_dispositivo] is missing or has a false truth value (the empty
    string among them), or when it cannot be a dictionary key.  Otherwise
    exactly the received record is appended to the buffer of its key, created
    empty if absent, and the buffer of every other key is what it was. *)
Theorem C5_ingest_total (json_loads : string -> res valor) (self : NodoCentral)
        (msg : string) :
  let self' := fst (listener_callback json_loads self msg) in
  (forall e, json_loads msg = inl e -> self' = self) /\
  (forall v, json_loads msg = inr v -> (forall d, v <> VDict d) -> self' = self) /\
  (forall d, json_loads msg = inr (VDict d) ->
             verdadero (dict_get "id_dispositivo" d) = false -> self' = self) /\
  (forall d e, json_loads msg = inr (VDict d) ->
               hash (dict_get "id_dispositivo" d) = inl e -> self' = self) /\
  (forall d c, json_loads msg = inr (VDict d) ->
               verdadero (dict_get "id_dispositivo" d) = true ->
               hash (dict_get "id_dispositivo" d) = inr c ->
               buscar c (buffers_por_dispositivo self') =
               Some (match buscar c (buffers_por_dispositivo self) with
                     | Some b => b
                     | None => []
                     end ++ [d]) /\
               forall c', c' <> c ->
                          buscar c' (buffers_por_dispositivo self') =
                          buscar c' (buffers_por_dispositivo self)) /\
  (forall d s, json_loads msg = inr (VDict d) ->
               dict_lookup "id_dispositivo" d = Some (VStr s) -> s <> "" ->
               buscar (CStr s) (buffers_por_dispositivo self') =
               Some (match buscar (CStr s) (buffers_por_dispositivo self) with
                     | Some b => b
                     | None => []
                     end ++ [d])).
Proof.
  intros self'. subst self'. rewrite listener_callback_estado.
  split; [|split; [|split; [|split; [|split]]]].
  - intros e He. apply recibir_descarta. intros; congruence.
  - intros v Hv Hnd. apply recibir_descarta. intros d c Hd _ _.
    apply (Hnd d). congruence.
  - intros d Hd Hf. apply recibir_descarta. intros d' c Hd' Ht.
    assert (d' = d) by congruence. subst. congruence.
  - intros d e Hd Hh. apply recibir_descarta. intros d' c Hd' _ Hh'.
    assert (d' = d) by congruence. subst. congruence.
  - intros d c Hd Hv Hh. rewrite (recibir_agrega json_loads self msg d c Hd Hv Hh).
    simpl. split; [apply buscar_agregar_misma|].
    intros c' Hc'. now apply buscar_agregar_otra.
  - intros d s Hd Hl Hs.
    assert (Hg : dict_get "id_dispositivo" d = VStr s).
    { unfold dict_get, dict_get_or. now rewrite Hl. }
    rewrite (recibir_agrega json_loads self msg d (CStr s) Hd).
    + simpl. apply buscar_agregar_misma.
    + rewrite Hg. simpl. apply Bool.negb_true_iff. now apply String.eqb_neq.
    + now rewrite Hg.
Qed.

Lemma C5_ingest_total_witness :
  buscar (CStr "D2")
         (buffers_por_dispositivo
            (fst (listener_callback
                    (responde (inr (VDict (lectura "D2" [("ph", decimal 7 1)]))))
                    nodo_ejemplo "msg"))) =
  Some (buffer_D2 ++ [lectura "D2" [("ph", decimal 7 1)]]).
Proof.
  destruct (C5_ingest_total
              (responde (inr (VDict (lectura "D2" [("ph", decimal 7 1)]))))
              nodo_ejemplo "msg") as (_ & _ & _ & _ & _ & H).
  apply (H (lectura "D2" [("ph", decimal 7 1)]) "D2");
    [reflexivity | reflexivity | discriminate].
Defined.

(** C8: ingesting a record that carries device identifier A leaves the buffer
    of every device B other than A exactly as it was. *)
Theorem C8_ingest_frame (json_loads : string -> res valor) (self : NodoCentral)
        (msg : string) (d : dict) (a b : clave) :
  json_loads msg = inr (VDict d) ->
  hash (dict_get "id_dispositivo" d) = inr a ->
  b <> a ->
  buscar b (buffers_por_dispositivo (fst (listener_callback json_loads self msg))) =
  buscar b (buffers_por_dispositivo self).
Proof.
  intros Hd Hh Hb. rewrite listener_callback_estado.
  destruct (verdadero (dict_get "id_dispositivo" d)) eqn:Hv.
  - rewrite (recibir_agrega json_loads self msg d a Hd Hv Hh). simpl.
    now apply buscar_agregar_otra.
  - rewrite recibir_descarta; [reflexivity|].
    intros d' c Hd' Ht. assert (d' = d) by congruence. subst. congruence.
Qed.

Lemma C8_ingest_frame_witness :
  buscar (CStr "D1")
         (buffers_por_dispositivo
            (fst (listener_callback
                    (responde (inr (VDict (lectura "D2" [("ph", decimal 7 1)]))))
                    nodo_ejemplo "msg"))) =
  buscar (CStr "D1") (buffers_por_dispositivo nodo_ejemplo).
Proof.
  apply (C8_ingest_frame
           (responde (inr (VDict (lectura "D2" [("ph", decimal 7 1)]))))
           nodo_ejemplo "msg" (lectura "D2" [("ph", decimal 7 1)]) (CStr "D2")
           (CStr "D1")); [reflexivity | reflexivity | discriminate].
Defined.

(** C9: a parsed payload whose [id_dispositivo] is present but is the empty
    string is handled exactly as one without the key: the node is unchanged,
    no buffer is created or appended to, and the same warning is logged; the
    test is the truth value of the identifier, not the presence of the key. *)
Theorem C9_empty_id_discarded (json_loads : string -> res valor)
        (self : NodoCentral) (msg : string) (d : dict) :
  json_loads msg = inr (VDict d) ->
  dict_lookup "id_dispositivo" d = Some (VStr "") \/
  dict_lookup "id_dispositivo" d = None ->
  listener_callback json_loads self msg = (self, [Log WARN SinIdDispositivo]).
Proof.
  intros Hd Hl. unfold listener_callback, recibir. rewrite Hd.
  unfold dict_get, dict_get_or. destruct Hl as [-> | ->]; reflexivity.
Qed.

Lemma C9_empty_id_discarded_witness :
  registro_con_id (VDict (lectura "" [("temperatura", decimal 21 1)])) = true /\
  listener_callback
    (responde (inr (VDict (lectura "" [("temperatura", decimal 21 1)]))))
    nodo_ejemplo "msg" = (nodo_ejemplo, [Log WARN SinIdDispositivo]).
Proof.
  split; [reflexivity|].
  apply (C9_empty_id_discarded
           (responde (inr (VDict (lectura "" [("temperatura", decimal 21 1)]))))
           nodo_ejemplo "msg" (lectura "" [("temperatura", decimal 21 1)]));
    [reflexivity | left; reflexivity].
Defined.

(** ** Publication *)

Section Publicacion.

Context {O : Ordenacion}.

Lemma peticiones_app (t1 t2 : list evento) :
  peticiones (t1 ++ t2) = peticiones t1 ++ peticiones t2.
Proof.
  induction t1 as [|ev t1 IH]; simpl; [reflexivity|].
  destruct ev; simpl; now rewrite IH.
Qed.

Lemma peticiones_despachar (net : red) (n : nat) (x : datos) :
  peticiones (despachar net n x) = [x].
Proof.
  unfold despachar. simpl. destruct (enviar (id_dispositivo x) (net n x)) eqn:E.
  - reflexivity.
  - unfold enviar in E. destruct (net n x) as [sc tx|ex]; [destruct (sc =? 201)|];
      discriminate.
Qed.

Lemma resumen_sin_peticiones (x : datos) (linea : evento) :
  resumen x = inr linea -> peticiones [linea] = [].
Proof.
  unfold resumen. destruct (formatos _); simpl; [discriminate|].
  intros H. injection H as <-. reflexivity.
Qed.

(** The answer of the sink changes neither the entry an iteration leaves nor
    the exception it may raise nor the payload it requests with. *)
Lemma publicar_dispositivo_red (net net' : red) (n n' : nat) (e : entrada) :
  estado (publicar_dispositivo net n e) = estado (publicar_dispositivo net' n' e) /\
  propagada (publicar_dispositivo net n e) = propagada (publicar_dispositivo net' n' e) /\
  peticiones (traza (publicar_dispositivo net n e)) =
  peticiones (traza (publicar_dispositivo net' n' e)).
Proof.
  unfold publicar_dispositivo.
  destruct (datos_filtrados (id_de e) (buffer_de e)) as [ex|x];
    cbn [estado traza propagada]; [auto|].
  destruct (resumen x) as [ex|linea] eqn:Hr; cbn [estado traza propagada].
  - rewrite !peticiones_despachar. auto.
  - rewrite !peticiones_app, !peticiones_despachar. auto.
Qed.

Lemma bucle_red (net net' : red) (bs : list entrada) :
  forall n n',
    estado (bucle net n bs) = estado (bucle net' n' bs) /\
    propagada (bucle net n bs) = propagada (bucle net' n' bs) /\
    peticiones (traza (bucle net n bs)) = peticiones (traza (bucle net' n' bs)).
Proof.
  induction bs as [|e bs IH]; intros n n'; simpl; [auto|].
  destruct (buffer_de e) eqn:Hb; simpl.
  - destruct (IH n n') as (H1 & H2 & H3). rewrite H1, H2, H3. auto.
  - destruct (publicar_dispositivo_red net net' n n' e) as (H1 & H2 & H3).
    rewrite <- H2. destruct (propagada (publicar_dispositivo net n e)); simpl.
    + rewrite H1, H3. auto.
    + destruct (IH (S n) (S n')) as (H4 & H5 & H6).
      rewrite !peticiones_app, H1, H3, H4, H5, H6. auto.
Qed.

Lemma publicar_dispositivo_completa (net : red) (n : nat) (e : entrada) :
  buffer_de e <> [] ->
  (propagada (publicar_dispositivo net n e) = None <-> publicable e).
Proof.
  intros Hne. unfold publicar_dispositivo, publicable. split.
  - destruct (datos_filtrados (id_de e) (buffer_de e)) as [ex|x]; simpl; [discriminate|].
    destruct (resumen x) as [ex|linea] eqn:Hr; simpl; [discriminate|].
    intros _. right. now exists x, linea.
  - intros [Hb | (x & linea & Hx & Hl)]; [contradiction|].
    rewrite Hx, Hl. reflexivity.
Qed.

Lemma publicar_dispositivo_vacia (net : red) (n : nat) (e : entrada) :
  propagada (publicar_dispositivo net n e) = None ->
  estado (publicar_dispositivo net n e) = vaciar e /\
  exists x, datos_filtrados (id_de e) (buffer_de e) = inr x /\
            peticiones (traza (publicar_dispositivo net n e)) = [x].
Proof.
  unfold publicar_dispositivo.
  destruct (datos_filtrados (id_de e) (buffer_de e)) as [ex|x];
    cbn [estado traza propagada]; [discriminate|].
  destruct (resumen x) as [ex|linea] eqn:Hr; cbn [estado traza propagada];
    [discriminate|].
  intros _. split; [reflexivity|]. exists x. split; [reflexivity|].
  rewrite peticiones_app, peticiones_despachar, (resumen_sin_peticiones x linea Hr).
  reflexivity.
Qed.

Lemma vaciar_vacia (e : entrada) : buffer_de e = [] -> vaciar e = e.
Proof. destruct e; simpl; intros ->; reflexivity. Qed.

(** A loop that ends without an exception leaves every entry with its key and
    an empty buffer, and has requested once with the payload of each
    non-empty buffer, in order. *)
Lemma bucle_completo (net : red) (bs : list entrada) :
  forall n,
    propagada (bucle net n bs) = None ->
    estado (bucle net n bs) = map vaciar bs /\
    peticiones (traza (bucle net n bs)) = resumenes bs.
Proof.
  induction bs as [|e bs IH]; intros n; simpl; [auto|].
  unfold resumenes. simpl. fold (resumenes bs).
  destruct (buffer_de e) as [|d b] eqn:Hb; simpl.
  - intros H. destruct (IH n H) as (H1 & H2).
    rewrite H1, H2, (vaciar_vacia e Hb). auto.
  - destruct (propagada (publicar_dispositivo net n e)) eqn:Hp; simpl; [discriminate|].
    intros H. destruct (IH (S n) H) as (H1 & H2).
    destruct (publicar_dispositivo_vacia net n e Hp) as (H3 & x & Hx & H4).
    rewrite Hb in Hx. rewrite Hx, peticiones_app, H1, H2, H3, H4. auto.
Qed.

(** The loop ends without an exception exactly when the line of what was sent
    can be logged for every non-empty buffer. *)
Lemma bucle_completa_sii (net : red) (bs : list entrada) :
  forall n, propagada (bucle net n bs) = None <-> Forall publicable bs.
Proof.
  induction bs as [|e bs IH]; intros n; simpl.
  - split; [constructor | reflexivity].
  - destruct (buffer_de e) as [|d b] eqn:Hb; simpl.
    + rewrite IH. split.
      * intros H. constructor; [now left | exact H].
      * intros H. now inversion H.
    + assert (Hne : buffer_de e <> []) by (rewrite Hb; discriminate).
      pose proof (publicar_dispositivo_completa net n e Hne) as Hc.
      destruct (propagada (publicar_dispositivo net n e)) as [ex|] eqn:Hp; simpl.
      * split; [discriminate|]. intros H. inversion H as [|? ? He _]; subst.
        apply Hc in He. discriminate.
      * rewrite IH. split.
        -- intros H. constructor; [now apply Hc | exact H].
        -- intros H. now inversion H.
Qed.

End Publicacion.

Section Completa.

Context {O : Ordenacion}.

Lemma entre_dos_float (s m : numero) :
  entre_dos s = inr m -> exists f, m = NFloat f.
Proof.
  unfold entre_dos. destruct (entero s) as [x|].
  - destruct (binary_normalize prec emax x (-1) false) eqn:E; unfold ret, raise;
      intros H; try discriminate; injection H as <-; eexists; reflexivity.
  - destruct (flotante s); simpl; unfold ret; intros H; [discriminate|].
    injection H as <-. eexists; reflexivity.
Qed.

(** The middle of a sequence is one of its elements or, for an even count, a
    [float]. *)
Lemma central_resultado (l : list numero) (m : numero) :
  central l = inr m ->
  (Nat.even (List.length l) = false /\ In m l) \/
  (Nat.even (List.length l) = true /\ exists f, m = NFloat f).
Proof.
  unfold central.
  destruct (Nat.even (List.length l)).
  - destruct (nth_error l _) as [a|]; [|discriminate].
    destruct (nth_error l _) as [b|]; [|discriminate].
    unfold promedio. destruct (suma a b) as [e|s]; simpl; [discriminate|].
    intros H. right. split; [reflexivity|]. now apply (entre_dos_float s).
  - destruct (nth_error l _) as [a|] eqn:E; [|discriminate].
    unfold ret. intros H. injection H as <-. left. split; [reflexivity|].
    now apply (nth_error_In _ _ E).
Qed.

Lemma formato_round2 (m : numero) :
  convertible m -> formato_seguro (VNum (round2 m)) = inr (Decimales (round2 m)).
Proof.
  unfold convertible. destruct m as [b|z|f]; simpl; try reflexivity.
  - intros [f Hf]. now rewrite Hf.
  - intros [f Hf]. now rewrite Hf.
Qed.

Lemma formato_mediana (buffer : list dict) (c : string) :
  lecturas_convertibles buffer ->
  exists t, formato_seguro (redondear (calcular_mediana buffer c)) = inr t.
Proof.
  intros Hc. rewrite calcular_mediana_central.
  destruct (valores_de buffer c) as [|a l] eqn:Hv; [now exists NA|].
  destruct (central (sorted (sorted (a :: l)))) as [e|m] eqn:Hm; [now exists NA|].
  exists (Decimales (round2 m)). cbn [redondear]. apply formato_round2.
  destruct (central_resultado _ _ Hm) as [(_ & Hin) | (_ & f & ->)]; [|exact I].
  apply (Permutation_in _ (sorted_dos_veces_perm (a :: l))) in Hin.
  rewrite <- Hv in Hin. apply valores_de_In in Hin.
  destruct Hin as (d & Hd & Hl). now apply (Hc d c m).
Qed.

Lemma publicable_convertible (e : entrada) :
  lecturas_convertibles (buffer_de e) -> publicable e.
Proof.
  intros Hc. destruct (buffer_de e) as [|d b] eqn:Hb; [now left|]. right.
  rewrite <- Hb in *.
  assert (Hne : buffer_de e <> []) by (rewrite Hb; discriminate).
  destruct (datos_filtrados_no_vacio (id_de e) _ Hne) as [x Hx].
  pose proof (datos_filtrados_campo _ _ _ Temperatura Hx) as E1.
  pose proof (datos_filtrados_campo _ _ _ Ph Hx) as E2.
  pose proof (datos_filtrados_campo _ _ _ Turbidez Hx) as E3.
  pose proof (datos_filtrados_campo _ _ _ Oxigeno Hx) as E4.
  pose proof (datos_filtrados_campo _ _ _ Luz Hx) as E5.
  cbn [campo nombre] in E1, E2, E3, E4, E5.
  destruct (formato_mediana (buffer_de e) "temperatura" Hc) as [t1 H1].
  destruct (formato_mediana (buffer_de e) "ph" Hc) as [t2 H2].
  destruct (formato_mediana (buffer_de e) "turbidez" Hc) as [t3 H3].
  destruct (formato_mediana (buffer_de e) "oxigeno" Hc) as [t4 H4].
  destruct (formato_mediana (buffer_de e) "luz" Hc) as [t5 H5].
  exists x, (Log INFO (Resumen (id_dispositivo x) [t1; t2; t3; t4; t5])).
  split; [exact Hx|]. unfold resumen. cbn [formatos].
  rewrite E1, E2, E3, E4, E5, H1, H2, H3, H4, H5. reflexivity.
Qed.

(** The loop ends without an exception on every node whose [int] readings
    all fit a [float], whatever the sink answers. *)
Lemma bucle_convertible (net : red) (n : nat) (bs : list entrada) :
  Forall (fun e => lecturas_convertibles (buffer_de e)) bs ->
  propagada (bucle net n bs) = None.
Proof.
  intros H. apply bucle_completa_sii.
  apply Forall_forall. intros e He. apply publicable_convertible.
  now apply (proj1 (Forall_forall _ _) H).
Qed.

Lemma buscar_map_vaciar (c : clave) (bs : list entrada) (b : list dict) :
  buscar c bs = Some b -> buscar c (map vaciar bs) = Some [].
Proof.
  induction bs as [|e bs IH]; simpl; [discriminate|].
  destruct (clave_eqb (clave_de e) c); [reflexivity | exact IH].
Qed.

Lemma publicar_datos_en_punto (self : NodoCentral) (minuto : Z) (net : red) :
  minuto = 0 \/ minuto = 30 ->
  publicar_datos self minuto net =
  {| estado := {| buffers_por_dispositivo :=
                    estado (bucle net 0 (buffers_por_dispositivo self)) |};
     traza := Log INFO Publicacion :: traza (bucle net 0 (buffers_por_dispositivo self));
     propagada := propagada (bucle net 0 (buffers_por_dispositivo self)) |}.
Proof. intros [-> | ->]; reflexivity. Qed.

Lemma publicar_datos_fuera (self : NodoCentral) (minuto : Z) (net : red) :
  minuto <> 0 -> minuto <> 30 ->
  publicar_datos self minuto net =
  {| estado := self; traza := [Log DEBUG Esperando]; propagada := None |}.
Proof.
  intros H0 H30. unfold publicar_datos. simpl.
  apply Z.eqb_neq in H0, H30. rewrite H0, H30. reflexivity.
Qed.

End Completa.

(** ** Conversion of small integers *)

Section Conversion.

Lemma digits2_pos_iter_xO (m k : positive) :
  Zpos (digits2_pos (Pos.iter xO m k)) = Zpos (digits2_pos m) + Zpos k.
Proof.
  revert m. induction k using Pos.peano_ind; intros m.
  - simpl. lia.
  - rewrite Pos.iter_succ. simpl. rewrite Pos2Z.inj_succ, IHk. lia.
Qed.

Lemma binary_round_aux_exacto (s : bool) (mz : positive) (ez : Z) :
  Zpos (digits2_pos mz) = 53 -> -1074 <= ez <= 971 ->
  binary_round_aux prec emax s (Zpos mz) ez loc_Exact = S754_finite s mz ez.
Proof.
  intros Hd He. unfold binary_round_aux, shr_fexp. cbn [Zdigits2 shr_record_of_loc].
  rewrite Hd.
  replace (fexp prec emax (53 + ez) - ez) with 0
    by (unfold fexp, emin, prec, emax; lia).
  cbn [shr shr_m loc_of_shr_record round_nearest_even Zdigits2 shr_record_of_loc].
  rewrite Hd.
  replace (fexp prec emax (53 + ez) - ez) with 0
    by (unfold fexp, emin, prec, emax; lia).
  cbn [shr shr_m].
  replace (ez <=? emax - prec) with true; [reflexivity|].
  symmetry. apply Z.leb_le. unfold emax, prec. lia.
Qed.

Lemma binary_round_pequeno (s : bool) (m : positive) :
  Zpos m < 2 ^ 53 ->
  exists mz ez, binary_round prec emax s m 0 = S754_finite s mz ez.
Proof.
  intros Hm.
  assert (Hd : Zpos (digits2_pos m) <= 53).
  { destruct (mantisa_cotas m) as [Hlo _].
    destruct (Z_le_gt_dec (Zpos (digits2_pos m)) 53) as [H|H]; [exact H|].
    exfalso.
    assert (2 ^ 54 <= 2 ^ Zpos (digits2_pos m)) by (apply Z.pow_le_mono_r; lia).
    change (2 ^ 54) with (2 * 2 ^ 53) in *. lia. }
  unfold binary_round, shl_align.
  replace (fexp prec emax (Zpos (digits2_pos m) + 0) - 0)
    with (Zpos (digits2_pos m) - 53)
    by (unfold fexp, emin, prec, emax; lia).
  destruct (Zpos (digits2_pos m) - 53) as [|p|p] eqn:E; try lia.
  - exists m, 0. apply binary_round_aux_exacto; lia.
  - exists (Pos.iter xO m p), (fexp prec emax (Zpos (digits2_pos m) + 0)).
    assert (Hf : fexp prec emax (Zpos (digits2_pos m) + 0) = Zpos (digits2_pos m) - 53)
      by (unfold fexp, emin, prec, emax; lia).
    apply binary_round_aux_exacto.
    + rewrite digits2_pos_iter_xO. lia.
    + rewrite Hf. lia.
Qed.

(** [float(z)] succeeds on every [int] below [2^53] in absolute value. *)
Lemma a_float_pequeno (z : Z) : Z.abs z < 2 ^ 53 -> exists f, a_float z = inr f.
Proof.
  intros Hz. unfold a_float, binary_normalize.
  destruct z as [|m|m].
  - eexists; reflexivity.
  - destruct (binary_round_pequeno false m Hz) as (mz & ez & ->). eexists; reflexivity.
  - destruct (binary_round_pequeno true m Hz) as (mz & ez & ->). eexists; reflexivity.
Qed.

Lemma pequenas_convertibles (buffer : list dict) :
  lecturas_pequenas buffer -> lecturas_convertibles buffer.
Proof.
  intros Hp d c a Hd Hl. unfold convertible. destruct a as [b|z|f]; cbn [entero].
  - apply a_float_pequeno. destruct b; simpl; lia.
  - apply a_float_pequeno. now apply (Hp d c z).
  - exact I.
Qed.

End Conversion.

(** ** Further properties of the formatting and of the median *)

Section Formato.

Context {O : Ordenacion}.

Lemma formato_seguro_error (v : valor) (e : excepcion) :
  formato_seguro v = inl e ->
  e = OverflowError /\ exists z, v = VNum (NInt z) /\ a_float z = inl OverflowError.
Proof.
  destruct v as [|a| | |]; simpl; try discriminate.
  destruct a as [b|z|f]; cbn [entero].
  - destruct (a_float_pequeno (Z.b2z b)) as [f ->]; [destruct b; simpl; lia|].
    simpl. discriminate.
  - destruct (a_float z) as [ex|f] eqn:E; simpl; [|discriminate].
    intros H. injection H as <-. pose proof (a_float_error z ex E) as ->.
    split; [reflexivity|]. now exists z.
  - discriminate.
Qed.

Lemma formatos_error (vs : list valor) (e : excepcion) :
  formatos vs = inl e -> e = OverflowError.
Proof.
  induction vs as [|v vs IH]; simpl; [discriminate|].
  destruct (formato_seguro v) as [ex|t] eqn:E; simpl.
  - intros H. injection H as <-. now destruct (formato_seguro_error v ex E).
  - destruct (formatos vs) as [ex|ts]; simpl; [|discriminate].
    intros H. injection H as <-. now apply IH.
Qed.

Lemma valores_de_sin_aporte (b1 b2 : list dict) (d : dict) (c : string) :
  dict_lookup c d = None \/
  (exists v, dict_lookup c d = Some v /\ es_numero v = false) ->
  valores_de (b1 ++ d :: b2) c = valores_de (b1 ++ b2) c.
Proof.
  intros H. unfold valores_de. rewrite !flat_map_app. f_equal. simpl.
  unfold dict_in, dict_get, dict_get_or.
  destruct H as [-> | (v & -> & Hv)]; [reflexivity|].
  destruct v; try reflexivity. discriminate Hv.
Qed.

End Formato.

(** ** Further properties of the publication loop *)

Section Bucle.

Context {O : Ordenacion}.

Lemma resumenes_cons_vacio (e : entrada) (bs : list entrada) :
  buffer_de e = [] -> resumenes (e :: bs) = resumenes bs.
Proof. intros H. unfold resumenes. simpl. now rewrite H. Qed.

Lemma resumenes_cons (e : entrada) (bs : list entrada) (x : datos) :
  buffer_de e <> [] -> datos_filtrados (id_de e) (buffer_de e) = inr x ->
  resumenes (e :: bs) = x :: resumenes bs.
Proof.
  intros Hne Hx. unfold resumenes. simpl. rewrite Hx.
  destruct (buffer_de e); [contradiction | reflexivity].
Qed.

Lemma resumenes_app (l1 l2 : list entrada) :
  resumenes (l1 ++ l2) = resumenes l1 ++ resumenes l2.
Proof. unfold resumenes. apply flat_map_app. Qed.

(** The requests of an iteration that raises: the one of its device, made
    before the line that fails. *)
Lemma publicar_dispositivo_interrumpido (net : red) (n : nat) (e : entrada)
      (ex : excepcion) :
  buffer_de e <> [] ->
  propagada (publicar_dispositivo net n e) = Some ex ->
  ex = OverflowError /\ estado (publicar_dispositivo net n e) = e /\
  exists x, datos_filtrados (id_de e) (buffer_de e) = inr x /\
            peticiones (traza (publicar_dispositivo net n e)) = [x].
Proof.
  intros Hne. destruct (datos_filtrados_no_vacio (id_de e) _ Hne) as [x Hx].
  unfold publicar_dispositivo. rewrite Hx.
  destruct (resumen x) as [ex'|linea] eqn:Hr; cbn [estado traza propagada];
    [|discriminate].
  intros H. injection H as <-. split.
  - unfold resumen in Hr. destruct (formatos _) as [e'|ts] eqn:Hf; simpl in Hr;
      [|discriminate]. injection Hr as <-. now apply (formatos_error _ _ Hf).
  - split; [reflexivity|]. exists x. split; [reflexivity | apply peticiones_despachar].
Qed.

Lemma bucle_prefijo (net : red) (bs : list entrada) :
  forall n, exists rest,
    resumenes bs = peticiones (traza (bucle net n bs)) ++ rest.
Proof.
  induction bs as [|e bs IH]; intros n; cbn [bucle]; [now exists []|].
  destruct (buffer_de e) as [|d b] eqn:Hb; cbn [traza].
  - destruct (IH n) as [rest Hr]. exists rest.
    now rewrite (resumenes_cons_vacio e bs Hb).
  - assert (Hne : buffer_de e <> []) by (rewrite Hb; discriminate).
    destruct (propagada (publicar_dispositivo net n e)) as [ex|] eqn:Hp; cbn [traza].
    + destruct (publicar_dispositivo_interrumpido net n e ex Hne Hp)
        as (_ & _ & x & Hx & Hpet).
      exists (resumenes bs). now rewrite Hpet, (resumenes_cons e bs x Hne Hx).
    + destruct (publicar_dispositivo_vacia net n e Hp) as (_ & x & Hx & Hpet).
      destruct (IH (S n)) as [rest Hr]. exists rest.
      rewrite peticiones_app, Hpet, (resumenes_cons e bs x Hne Hx), Hr. reflexivity.
Qed.

Lemma bucle_interrumpido (net : red) (bs : list entrada) :
  forall n ex,
    propagada (bucle net n bs) = Some ex ->
    ex = OverflowError /\
    exists hechos e resto,
      bs = hechos ++ e :: resto /\
      estado (bucle net n bs) = map vaciar hechos ++ e :: resto /\
      Forall publicable hechos /\ buffer_de e <> [] /\ ~ publicable e /\
      peticiones (traza (bucle net n bs)) = resumenes (hechos ++ [e]).
Proof.
  induction bs as [|e bs IH]; intros n ex; cbn [bucle]; [discriminate|].
  destruct (buffer_de e) as [|d b] eqn:Hb; cbn [estado traza propagada].
  - intros Hp. destruct (IH n ex Hp) as (-> & hechos & e' & resto & -> & He & Hh & Hn & Hnp & Hpet).
    split; [reflexivity|]. exists (e :: hechos), e', resto.
    split; [reflexivity|]. split; [simpl; now rewrite He, (vaciar_vacia e Hb)|].
    split; [constructor; [now left | exact Hh]|]. split; [exact Hn|]. split; [exact Hnp|].
    rewrite <- app_comm_cons, (resumenes_cons_vacio e _ Hb). exact Hpet.
  - assert (Hne : buffer_de e <> []) by (rewrite Hb; discriminate).
    destruct (propagada (publicar_dispositivo net n e)) as [ex'|] eqn:Hpd;
      cbn [estado traza propagada].
    + intros H. injection H as <-.
      destruct (publicar_dispositivo_interrumpido net n e ex' Hne Hpd)
        as (-> & He & x & Hx & Hpet).
      split; [reflexivity|]. exists [], e, bs.
      split; [reflexivity|]. split; [simpl; now rewrite He|].
      split; [constructor|]. split; [exact Hne|]. split.
      * intros Hpub. apply (publicar_dispositivo_completa net n e Hne) in Hpub.
        congruence.
      * cbn [app]. rewrite Hpet, (resumenes_cons e [] x Hne Hx). reflexivity.
    + intros Hp.
      destruct (IH (S n) ex Hp) as (-> & hechos & e' & resto & -> & He & Hh & Hn & Hnp & Hpet).
      destruct (publicar_dispositivo_vacia net n e Hpd) as (Hv & x & Hx & Hpe).
      split; [reflexivity|]. exists (e :: hechos), e', resto.
      split; [reflexivity|]. split; [simpl; now rewrite He, Hv|].
      split; [constructor;
              [now apply (publicar_dispositivo_completa net n e Hne) | exact Hh]|].
      split; [exact Hn|]. split; [exact Hnp|].
      rewrite <- app_comm_cons, peticiones_app, Hpe, Hpet,
        (resumenes_cons e _ x Hne Hx).
      reflexivity.
Qed.

Lemma bucle_vacios (net : red) (bs : list entrada) :
  forall n, Forall (fun e => buffer_de e = []) bs ->
            bucle net n bs = {| estado := bs; traza := []; propagada := None |}.
Proof.
  induction bs as [|e bs IH]; intros n H; simpl; [reflexivity|].
  inversion H as [|? ? He Hbs]; subst. rewrite He, (IH n Hbs). reflexivity.
Qed.

Lemma map_vaciar_vacios (bs : list entrada) :
  Forall (fun e => buffer_de e = []) (map vaciar bs).
Proof. induction bs; simpl; constructor; auto. Qed.


(** One iteration on a non-empty buffer: the request, the record of its
    answer, then the line of what was sent, which either is logged, and the
    buffer emptied, or raises [OverflowError], and the buffer is kept. *)
Lemma publicar_dispositivo_pasos (net : red) (n : nat) (e : entrada) :
  buffer_de e <> [] ->
  exists y,
    datos_filtrados (id_de e) (buffer_de e) = inr y /\
    peticiones (traza (publicar_dispositivo net n e)) = [y] /\
    In (enviar (id_de e) (net n y)) (traza (publicar_dispositivo net n e)) /\
    ((exists linea, resumen y = inr linea) ->
     estado (publicar_dispositivo net n e) = vaciar e /\
     propagada (publicar_dispositivo net n e) = None) /\
    (resumen y = inl OverflowError ->
     estado (publicar_dispositivo net n e) = e /\
     propagada (publicar_dispositivo net n e) = Some OverflowError) /\
    (resumen y = inl OverflowError \/ exists linea, resumen y = inr linea).
Proof.
  intros Hne. destruct (datos_filtrados_no_vacio (id_de e) _ Hne) as [y Hy].
  exists y. split; [exact Hy|].
  assert (Hid : id_dispositivo y = id_de e).
  { unfold datos_filtrados in Hy. destruct (ultimo (buffer_de e)); simpl in Hy;
      [discriminate|]. injection Hy as <-. reflexivity. }
  unfold publicar_dispositivo. rewrite Hy.
  destruct (resumen y) as [ex|linea] eqn:Hr; cbn [estado traza propagada].
  - assert (Hex : ex = OverflowError).
    { unfold resumen in Hr. destruct (formatos _) as [e'|ts] eqn:Hf; simpl in Hr;
        [|discriminate]. injection Hr as <-. now apply (formatos_error _ _ Hf). }
    subst ex. rewrite peticiones_despachar.
    split; [reflexivity|]. split; [unfold despachar; rewrite Hid; right; now left|].
    split; [intros [linea Hl]; discriminate Hl|]. split; [auto | now left].
  - rewrite peticiones_app, peticiones_despachar, (resumen_sin_peticiones y linea Hr).
    split; [reflexivity|].
    split; [unfold despachar; rewrite Hid; apply in_or_app; left; right; now left|].
    split; [auto|]. split; [discriminate|]. right. now exists linea.
Qed.

(** ** Buffers on which every sort gives the same result *)

Lemma bucle_determinado (net : red) (bs : list entrada) :
  Forall (fun e => buffer_determinado (buffer_de e)) bs ->
  forall n, bucle net n bs = bucle (O := ordenacion_estable) net n bs.
Proof.
  induction 1 as [|e bs He _ IH]; intros n; [reflexivity|].
  cbn [bucle]. unfold publicar_dispositivo.
  rewrite (datos_filtrados_determinado (id_de e) _ He), (IH n), (IH (S n)).
  reflexivity.
Qed.

Lemma publicar_datos_determinado (self : NodoCentral) (minuto : Z) (net : red) :
  Forall (fun e => buffer_determinado (buffer_de e)) (buffers_por_dispositivo self) ->
  publicar_datos self minuto net =
  publicar_datos (O := ordenacion_estable) self minuto net.
Proof.
  intros H. unfold publicar_datos. now rewrite (bucle_determinado net _ H).
Qed.

End Bucle.

(** C4: at a publication minute, when the cycle completes every buffer that
    was in the store is empty, under the same key, and each non-empty buffer
    was reduced and requested once; this holds for every answer of the sink
    to every request, since the answers change neither the resulting store
    nor the payloads requested nor whether the cycle completes, which it does
    exactly when the line of what was sent can be logged for each device. *)
Theorem C4_flush_clears_every_buffer {O : Ordenacion} (self : NodoCentral) (minuto : Z)
        (net net' : red) :
  minuto = 0 \/ minuto = 30 ->
  let out := publicar_datos self minuto net in
  let out' := publicar_datos self minuto net' in
  (estado out = estado out' /\ propagada out = propagada out' /\
   peticiones (traza out) = peticiones (traza out')) /\
  (propagada out = None <-> Forall publicable (buffers_por_dispositivo self)) /\
  (propagada out = None ->
   buffers_por_dispositivo (estado out) = map vaciar (buffers_por_dispositivo self) /\
   (forall c b, buscar c (buffers_por_dispositivo self) = Some b ->
                buscar c (buffers_por_dispositivo (estado out)) = Some []) /\
   peticiones (traza out) = resumenes (buffers_por_dispositivo self)).
Proof.
  intros Hm out out'. subst out out'.
  rewrite !(publicar_datos_en_punto self minuto _ Hm). cbn [estado traza propagada].
  destruct (bucle_red net net' (buffers_por_dispositivo self) 0%nat 0%nat)
    as (H1 & H2 & H3).
  split; [|split].
  - cbn [peticiones]. rewrite H1, H2, H3. auto.
  - apply bucle_completa_sii.
  - intros Hp. destruct (bucle_completo net _ 0%nat Hp) as (H4 & H5).
    cbn [peticiones buffers_por_dispositivo]. rewrite H4, H5.
    split; [reflexivity|]. split; [|reflexivity].
    intros c b. apply buscar_map_vaciar.
Qed.

Lemma C4_flush_clears_every_buffer_witness :
  estado (publicar_datos nodo_ejemplo 30 red_averiada) =
  estado (publicar_datos nodo_ejemplo 30 red_sana) /\
  buffers_por_dispositivo (estado (publicar_datos nodo_ejemplo 30 red_averiada)) =
  [entrada_de "D1" []; entrada_de "D0" []; entrada_de "D2" []] /\
  List.length (peticiones (traza (publicar_datos nodo_ejemplo 30 red_averiada))) = 2%nat.
Proof.
  destruct (C4_flush_clears_every_buffer nodo_ejemplo 30 red_averiada red_sana
              (or_intror eq_refl)) as ((H1 & _ & _) & _ & H).
  split; [exact H1|].
  destruct (H eq_refl) as (H2 & _ & H3).
  split; [rewrite H2; reflexivity | rewrite H3; reflexivity].
Defined.

(** Every publication completes on the sample node, whatever the sink
    answers: its readings are all [float]. *)
Example publicacion_completa {O : Ordenacion} (net : red) :
  propagada (publicar_datos nodo_ejemplo 0 net) = None.
Proof.
  rewrite publicar_datos_en_punto by now left. cbn [propagada].
  apply bucle_convertible. unfold nodo_ejemplo. cbn [buffers_por_dispositivo].
  repeat constructor; intros d c a Hd Hl; cbn [entrada_de buffer_de] in Hd;
    unfold convertible; destruct a as [b|z|f]; cbn [entero]; try exact I;
    exfalso; cbn [In buffer_D1 buffer_D2] in Hd;
    repeat (destruct Hd as [<- | Hd];
            [cbn in Hl;
             repeat match type of Hl with
                    | (if ?b then _ else _) = _ => destruct b
                    end; discriminate |]); exact Hd.
Qed.

(** The line that shows what was sent is outside the [try]: a median that is
    an [int] too large for [float] interrupts the cycle after the request,
    before the buffer is emptied. *)
Example publicacion_interrumpida {O : Ordenacion} :
  propagada (publicar_datos nodo_enorme 0 red_sana) = Some OverflowError /\
  estado (publicar_datos nodo_enorme 0 red_sana) = nodo_enorme /\
  List.length (peticiones (traza (publicar_datos nodo_enorme 0 red_sana))) = 1%nat.
Proof.
  rewrite publicar_datos_determinado; [vm_compute; repeat split|].
  constructor; [|constructor]. intros c. left.
  destruct c; vm_compute; repeat constructor; discriminate.
Qed.



(** C7: the record logged for a dispatch reports Delivered exactly when the
    sink answered with status 201, Rejected with the status for any other
    answer, and Unreachable for a transport failure.  Whatever the answer,
    one request is made and no other, and the answer changes neither the
    entry the iteration leaves nor the exception it may raise.  The dispatch
    raises nothing of its own, but the line that logs what was sent comes
    after it, outside the [try]: where that line is logged the buffer is
    emptied, the summary is not kept and nothing is raised; where it raises
    [OverflowError], on a median that is an [int] too large for [float], the
    exception escapes the tick and the buffer is kept.  So it is with a
    reading of [10^400] and a sink that answers 500: the rejection is logged,
    [OverflowError] escapes, the store is what it was, and the next tick
    requests the same summary again. *)
Theorem C7_dispatch_outcomes {O : Ordenacion} (net net' : red) (n : nat) (x : datos)
        (id_disp : valor) (e : entrada) (r : respuesta) :
  outcome_registrado (enviar id_disp r) = Some (dispatch r) /\
  (outcome_registrado (enviar id_disp r) = Some Delivered <->
   exists text, r = Response 201 text) /\
  (forall code text, r = Response code text -> code <> 201 ->
                     outcome_registrado (enviar id_disp r) = Some (Rejected code)) /\
  (forall ex, r = RequestException ex ->
              outcome_registrado (enviar id_disp r) = Some Unreachable) /\
  despachar net n x = [Post API_URL x 5; enviar (id_dispositivo x) (net n x)] /\
  peticiones (despachar net n x) = [x] /\
  estado (publicar_dispositivo net n e) = estado (publicar_dispositivo net' n e) /\
  propagada (publicar_dispositivo net n e) = propagada (publicar_dispositivo net' n e) /\
  (buffer_de e <> [] ->
   exists y,
     datos_filtrados (id_de e) (buffer_de e) = inr y /\
     peticiones (traza (publicar_dispositivo net n e)) = [y] /\
     In (enviar (id_de e) (net n y)) (traza (publicar_dispositivo net n e)) /\
     ((exists linea, resumen y = inr linea) ->
      estado (publicar_dispositivo net n e) = vaciar e /\
      propagada (publicar_dispositivo net n e) = None) /\
     (resumen y = inl OverflowError ->
      estado (publicar_dispositivo net n e) = e /\
      propagada (publicar_dispositivo net n e) = Some OverflowError) /\
     (resumen y = inl OverflowError \/ exists linea, resumen y = inr linea)) /\
  (let out := publicar_datos nodo_enorme 0 red_rechaza in
   let out' := publicar_datos (estado out) 30 red_rechaza in
   exists y,
     peticiones (traza out) = [y] /\
     temperatura y = VNum (NInt enorme) /\
     In (Log WARN (ErrorAlEnviar (VStr "D3") 500 "Internal Server Error")) (traza out) /\
     propagada out = Some OverflowError /\
     estado out = nodo_enorme /\
     peticiones (traza out') = [y] /\
     propagada out' = Some OverflowError).
Proof.
  split; [|split; [|split; [|split; [|split; [|split; [|split; [|split; [|split]]]]]]]].
  - destruct r as [sc tx|ex]; simpl; [destruct (sc =? 201)|]; reflexivity.
  - split.
    + destruct r as [sc tx|ex]; simpl; [|discriminate].
      destruct (sc =? 201) eqn:E; [|discriminate].
      apply Z.eqb_eq in E. subst. intros _. now exists tx.
    + intros [tx ->]. reflexivity.
  - intros code text -> Hc. simpl. apply Z.eqb_neq in Hc. now rewrite Hc.
  - intros ex ->. reflexivity.
  - reflexivity.
  - apply peticiones_despachar.
  - apply (publicar_dispositivo_red net net' n n e).
  - apply (publicar_dispositivo_red net net' n n e).
  - apply publicar_dispositivo_pasos.
  - assert (Hd : Forall (fun e => buffer_determinado (buffer_de e))
                        (buffers_por_dispositivo nodo_enorme)).
    { constructor; [|constructor]. intros c. left.
      destruct c; vm_compute; repeat constructor; discriminate. }
    cbv zeta.
    rewrite (publicar_datos_determinado nodo_enorme 0 red_rechaza Hd).
    assert (He : estado (publicar_datos (O := ordenacion_estable) nodo_enorme 0 red_rechaza)
                 = nodo_enorme) by (vm_compute; reflexivity).
    rewrite He, (publicar_datos_determinado nodo_enorme 30 red_rechaza Hd).
    eexists. vm_compute.
    split; [reflexivity|]. split; [reflexivity|]. split; [right; right; left; reflexivity|].
    repeat split.
Qed.

Lemma C7_dispatch_outcomes_witness :
  outcome_registrado (enviar (VStr "D1") (Response 500 "Internal Server Error")) =
  Some (Rejected 500) /\
  outcome_registrado (enviar (VStr "D1") (RequestException "timeout")) =
  Some Unreachable /\
  estado (publicar_dispositivo red_averiada 0 (entrada_de "D1" buffer_D1)) =
  entrada_de "D1" [] /\
  propagada (publicar_dispositivo red_averiada 1 (entrada_de "D1" buffer_D1)) = None /\
  propagada (publicar_datos nodo_enorme 0 red_rechaza) = Some OverflowError /\
  estado (publicar_datos nodo_enorme 0 red_rechaza) = nodo_enorme.
Proof.
  pose (x1 := {| id_dispositivo := VStr "D1"; dominio := VStr "lab1";
                 temperatura := decimal 21 1; ph := VNone; turbidez := VNone;
                 oxigeno := VNone; luz := VNone |}).
  assert (Hlinea : forall y, datos_filtrados (VStr "D1") buffer_D1 = inr y ->
                             exists linea, resumen y = inr linea).
  { intros y Hy. rewrite escenario_D1 in Hy. injection Hy as <-.
    eexists. cbv. reflexivity. }
  split; [|split; [|split; [|split]]].
  - destruct (C7_dispatch_outcomes red_averiada red_sana 1 x1
                (VStr "D1") (entrada_de "D1" buffer_D1)
                (Response 500 "Internal Server Error")) as (_ & _ & H & _).
    apply (H 500 "Internal Server Error"); [reflexivity | discriminate].
  - destruct (C7_dispatch_outcomes red_averiada red_sana 0 x1
                (VStr "D1") (entrada_de "D1" buffer_D1)
                (RequestException "timeout")) as (_ & _ & _ & H & _).
    apply (H "timeout"). reflexivity.
  - destruct (C7_dispatch_outcomes red_averiada red_sana 0 x1
                (VStr "D1") (entrada_de "D1" buffer_D1)
                (RequestException "timeout")) as (_ & _ & _ & _ & _ & _ & _ & _ & H & _).
    destruct (H ltac:(discriminate)) as (y & Hy & _ & _ & Hok & _).
    destruct (Hok (Hlinea y Hy)) as (H1 & _). exact H1.
  - destruct (C7_dispatch_outcomes red_averiada red_sana 1 x1
                (VStr "D1") (entrada_de "D1" buffer_D1)
                (Response 500 "Internal Server Error")) as (_ & _ & _ & _ & _ & _ & _ & _ & H & _).
    destruct (H ltac:(discriminate)) as (y & Hy & _ & _ & Hok & _).
    destruct (Hok (Hlinea y Hy)) as (_ & H2). exact H2.
  - destruct (C7_dispatch_outcomes red_averiada red_sana 0 x1
                (VStr "D1") (entrada_de "D1" buffer_D1)
                (RequestException "timeout")) as (_ & _ & _ & _ & _ & _ & _ & _ & _ & H).
    destruct H as (y & _ & _ & _ & Hp & He & _). split; [exact Hp | exact He].
Defined.

(** ** The invariant of the store *)

Section Invariante.

Context {O : Ordenacion}.

Variable json_loads : string -> res valor.

Lemma agregar_claves_presente (c : clave) (id_disp : valor) (data : dict)
      (bs : list entrada) :
  In c (map clave_de bs) ->
  map clave_de (agregar c id_disp data bs) = map clave_de bs.
Proof.
  induction bs as [|e bs IH]; simpl; [intros []|].
  destruct (clave_eqb (clave_de e) c) eqn:E; simpl; [reflexivity|].
  intros [H|H].
  - apply clave_eqb_eq in H. congruence.
  - now rewrite IH.
Qed.

Lemma agregar_claves_ausente (c : clave) (id_disp : valor) (data : dict)
      (bs : list entrada) :
  ~ In c (map clave_de bs) ->
  map clave_de (agregar c id_disp data bs) = map clave_de bs ++ [c].
Proof.
  induction bs as [|e bs IH]; simpl; [reflexivity|].
  intros H. destruct (clave_eqb (clave_de e) c) eqn:E; simpl.
  - apply clave_eqb_eq in E. exfalso. apply H. now left.
  - rewrite IH; [reflexivity|]. intros Hin. apply H. now right.
Qed.

Lemma agregar_NoDup (c : clave) (id_disp : valor) (data : dict) (bs : list entrada) :
  NoDup (map clave_de bs) -> NoDup (map clave_de (agregar c id_disp data bs)).
Proof.
  intros Hnd. destruct (in_dec clave_eq_dec c (map clave_de bs)) as [Hin|Hout].
  - now rewrite agregar_claves_presente.
  - rewrite agregar_claves_ausente by assumption.
    apply NoDup_rev in Hnd. rewrite <- (rev_involutive (_ ++ [c])).
    apply NoDup_rev. rewrite rev_unit. constructor; [|exact Hnd].
    rewrite <- in_rev. exact Hout.
Qed.

Lemma agregar_bien_formadas (c : clave) (id_disp : valor) (data : dict)
      (bs : list entrada) :
  hash id_disp = inr c -> registro_de c data ->
  Forall entrada_bien_formada bs ->
  Forall entrada_bien_formada (agregar c id_disp data bs).
Proof.
  intros Hh Hr. induction bs as [|e bs IH]; simpl; intros Hall.
  - repeat constructor; simpl; [exact Hh | exact Hr].
  - inversion Hall as [|? ? [He Hb] Hrest]; subst.
    destruct (clave_eqb (clave_de e) c) eqn:E.
    + apply clave_eqb_eq in E. constructor; [|exact Hrest].
      split; simpl; [exact He|]. apply Forall_app. split; [exact Hb|].
      constructor; [|constructor]. now rewrite E.
    + constructor; [now split | now apply IH].
Qed.

(** Reception keeps the invariant. *)
Lemma listener_callback_bien_formado (self : NodoCentral) (msg : string) :
  bien_formado self -> bien_formado (fst (listener_callback json_loads self msg)).
Proof.
  intros [Hnd Hall]. rewrite listener_callback_estado. unfold recibir.
  destruct (json_loads msg) as [e|v]; [now split|].
  destruct v; try now split.
  destruct (verdadero (dict_get "id_dispositivo" d)); [|now split].
  destruct (hash (dict_get "id_dispositivo" d)) as [e|c] eqn:Hh; [now split|].
  split; simpl; [now apply agregar_NoDup | now apply agregar_bien_formadas].
Qed.

Lemma publicar_dispositivo_forma (net : red) (n : nat) (e : entrada) :
  misma_o_vacia e (estado (publicar_dispositivo net n e)).
Proof.
  unfold publicar_dispositivo, misma_o_vacia.
  destruct (datos_filtrados (id_de e) (buffer_de e)) as [ex|x]; simpl; [auto|].
  destruct (resumen x); simpl; auto.
Qed.

(** With or without an exception, the loop keeps every entry in place under
    its key, with its buffer as it was or emptied. *)
Lemma bucle_forma (net : red) (bs : list entrada) :
  forall n, Forall2 misma_o_vacia bs (estado (bucle net n bs)).
Proof.
  assert (Hrefl : forall l, Forall2 misma_o_vacia l l).
  { induction l; constructor; [unfold misma_o_vacia; auto | assumption]. }
  induction bs as [|e bs IH]; intros n; simpl; [constructor|].
  destruct (buffer_de e) eqn:Hb; simpl.
  - constructor; [unfold misma_o_vacia; auto | apply IH].
  - pose proof (publicar_dispositivo_forma net n e) as Hp.
    destruct (propagada (publicar_dispositivo net n e)); simpl;
      constructor; auto.
Qed.

Lemma misma_o_vacia_bien_formada (e e' : entrada) :
  misma_o_vacia e e' -> entrada_bien_formada e -> entrada_bien_formada e'.
Proof.
  intros (Hc & Hi & Hb) [Hh Hr]. split.
  - now rewrite Hc, Hi.
  - rewrite Hc. destruct Hb as [-> | ->]; [exact Hr | constructor].
Qed.

Lemma forma_bien_formado (bs bs' : list entrada) :
  Forall2 misma_o_vacia bs bs' ->
  NoDup (map clave_de bs) /\ Forall entrada_bien_formada bs ->
  NoDup (map clave_de bs') /\ Forall entrada_bien_formada bs'.
Proof.
  intros H2.
  assert (Hk : map clave_de bs' = map clave_de bs).
  { induction H2 as [|e e' l l' (Hc & _) _ IH]; simpl; [reflexivity|].
    now rewrite Hc, IH. }
  intros [Hnd Hall]. split; [now rewrite Hk|].
  clear Hnd Hk. induction H2 as [|e e' l l' He _ IH]; [constructor|].
  inversion Hall; subst. constructor; [|now apply IH].
  now apply (misma_o_vacia_bien_formada e).
Qed.

(** Publication keeps the invariant, also when it is interrupted. *)
Lemma publicar_datos_bien_formado (self : NodoCentral) (minuto : Z) (net : red) :
  bien_formado self -> bien_formado (estado (publicar_datos self minuto net)).
Proof.
  intros Hbf. unfold publicar_datos.
  destruct (existsb (Z.eqb minuto) [0; 30]); [|exact Hbf].
  unfold bien_formado. cbn [estado buffers_por_dispositivo].
  apply (forma_bien_formado (buffers_por_dispositivo self)); [apply bucle_forma | exact Hbf].
Qed.

Lemma init_bien_formado : bien_formado init.
Proof. split; constructor. Qed.

End Invariante.

(** X9: [formato_seguro] gives ["N/A"] for whatever is not a number, formats
    every [float] (NaN and the infinities too), every [bool] and every [int]
    below [2^53] in absolute value, and fails only with [OverflowError], only
    on an [int], of at least that size, that [float()] rejects. *)
Theorem X9_formato_seguro_edges (v : valor) :
  (es_numero v = false -> formato_seguro v = inr NA) /\
  (forall f, v = VNum (NFloat f) -> formato_seguro v = inr (Decimales (NFloat f))) /\
  (forall b, v = VNum (NBool b) -> formato_seguro v = inr (Decimales (NBool b))) /\
  (forall z, v = VNum (NInt z) -> Z.abs z < 2 ^ 53 ->
             formato_seguro v = inr (Decimales (NInt z))) /\
  (forall e, formato_seguro v = inl e ->
             e = OverflowError /\
             exists z, v = VNum (NInt z) /\ 2 ^ 53 <= Z.abs z /\
                       a_float z = inl OverflowError).
Proof.
  split; [|split; [|split; [|split]]].
  - destruct v; simpl; try reflexivity. discriminate.
  - intros f ->. reflexivity.
  - intros b ->. simpl.
    destruct (a_float_pequeno (Z.b2z b)) as [f ->]; [destruct b; simpl; lia|].
    reflexivity.
  - intros z -> Hz. simpl. destruct (a_float_pequeno z Hz) as [f ->]. reflexivity.
  - intros e He. destruct (formato_seguro_error v e He) as (-> & z & -> & Hz).
    split; [reflexivity|]. exists z. split; [reflexivity|]. split; [|exact Hz].
    destruct (Z_lt_le_dec (Z.abs z) (2 ^ 53)) as [Hlt|Hge]; [|exact Hge].
    destruct (a_float_pequeno z Hlt) as [f Hf]. congruence.
Qed.

Lemma X9_formato_seguro_edges_witness :
  formato_seguro (VStr "alto") = inr NA /\
  formato_seguro (VNum (NInt 300)) = inr (Decimales (NInt 300)) /\
  exists z, VNum (NInt enorme) = VNum (NInt z) /\ 2 ^ 53 <= Z.abs z /\
            a_float z = inl OverflowError.
Proof.
  split; [|split].
  - destruct (X9_formato_seguro_edges (VStr "alto")) as (H & _). apply H. reflexivity.
  - destruct (X9_formato_seguro_edges (VNum (NInt 300))) as (_ & _ & _ & H & _).
    apply (H 300); [reflexivity | reflexivity].
  - destruct (X9_formato_seguro_edges (VNum (NInt enorme))) as (_ & _ & _ & _ & H).
    destruct (H OverflowError) as (_ & Hz); [vm_compute; reflexivity | exact Hz].
Defined.

(** X8: a tick of the timer never raises on a node whose [int] readings are
    all below [2^53] in absolute value, whatever its [float] readings and
    whatever the sink answers; at minute 0 or 30 it then leaves every buffer
    empty under its key. *)
Theorem X8_publication_completes {O : Ordenacion} (self : NodoCentral) (minuto : Z) (net : red) :
  Forall (fun e => lecturas_pequenas (buffer_de e)) (buffers_por_dispositivo self) ->
  propagada (publicar_datos self minuto net) = None /\
  (minuto = 0 \/ minuto = 30 ->
   buffers_por_dispositivo (estado (publicar_datos self minuto net)) =
   map vaciar (buffers_por_dispositivo self)).
Proof.
  intros Hp.
  assert (Hc : propagada (bucle net 0 (buffers_por_dispositivo self)) = None).
  { apply bucle_convertible. apply Forall_forall. intros e He.
    apply pequenas_convertibles. now apply (proj1 (Forall_forall _ _) Hp). }
  split.
  - unfold publicar_datos. destruct (existsb (Z.eqb minuto) [0; 30]); [exact Hc | reflexivity].
  - intros Hm. rewrite (publicar_datos_en_punto self minuto net Hm).
    cbn [estado buffers_por_dispositivo]. now apply bucle_completo.
Qed.

Lemma X8_publication_completes_witness :
  propagada (publicar_datos nodo_entero 30 red_averiada) = None /\
  buffers_por_dispositivo (estado (publicar_datos nodo_entero 30 red_averiada)) =
  map vaciar (buffers_por_dispositivo nodo_entero).
Proof.
  destruct (X8_publication_completes nodo_entero 30 red_averiada) as (H1 & H2).
  - constructor; [|constructor]. intros d c z Hd Hl.
    cbn [nodo_entero buffers_por_dispositivo buffer_de In] in Hd.
    destruct Hd as [<- | []]. cbn [dict_lookup] in Hl.
    destruct (String.eqb "luz" c); [|discriminate].
    injection Hl as <-. reflexivity.
  - split; [exact H1|]. apply H2. now right.
Defined.

(** X10: a record that lacks the field, or holds something that is not a
    number under it, counts for nothing in that field's median: the result is
    that of the buffer without the record. *)
Theorem X10_non_numeric_ignored {O : Ordenacion} (b1 b2 : list dict) (d : dict) (c : string) :
  dict_lookup c d = None \/
  (exists v, dict_lookup c d = Some v /\ es_numero v = false) ->
  calcular_mediana (b1 ++ d :: b2) c = calcular_mediana (b1 ++ b2) c.
Proof.
  intros H. unfold calcular_mediana. now rewrite (valores_de_sin_aporte b1 b2 d c H).
Qed.

Lemma X10_non_numeric_ignored_witness :
  calcular_mediana
    ([lectura "D2" [("ph", decimal 742 100)]] ++
     lectura "D2" [("ph", VStr "alto")] :: [lectura "D2" [("ph", decimal 7 1)]]) "ph" =
  calcular_mediana
    ([lectura "D2" [("ph", decimal 742 100)]] ++ [lectura "D2" [("ph", decimal 7 1)]]) "ph".
Proof.
  apply (X10_non_numeric_ignored [lectura "D2" [("ph", decimal 742 100)]]
           [lectura "D2" [("ph", decimal 7 1)]] (lectura "D2" [("ph", VStr "alto")]) "ph").
  right. exists (VStr "alto"). split; reflexivity.
Defined.

(** X2: a tick of the timer, at any minute and whether or not it is
    interrupted, keeps every entry of the store in its place under its key
    and identifier, with its buffer either untouched or emptied: it never adds,
    removes, reorders or rewrites a device. *)
Theorem X2_publication_keeps_entries {O : Ordenacion} (self : NodoCentral) (minuto : Z) (net : red) :
  Forall2 misma_o_vacia (buffers_por_dispositivo self)
          (buffers_por_dispositivo (estado (publicar_datos self minuto net))) /\
  map clave_de (buffers_por_dispositivo (estado (publicar_datos self minuto net))) =
  map clave_de (buffers_por_dispositivo self).
Proof.
  assert (H : Forall2 misma_o_vacia (buffers_por_dispositivo self)
                (buffers_por_dispositivo (estado (publicar_datos self minuto net)))).
  { unfold publicar_datos. destruct (existsb (Z.eqb minuto) [0; 30]);
      cbn [estado buffers_por_dispositivo]; [apply bucle_forma|].
    induction (buffers_por_dispositivo self); constructor;
      [unfold misma_o_vacia; auto | assumption]. }
  split; [exact H|].
  induction H as [|e e' l l' (Hc & _) _ IH]; simpl; [reflexivity|].
  now rewrite Hc, IH.
Qed.

(** X5: after a publication that completed, a further tick with nothing
    received in between requests nothing, raises nothing and leaves the store
    as it is, at any minute and whatever the network: a summary is sent once. *)
Theorem X5_no_second_request {O : Ordenacion} (self : NodoCentral) (minuto minuto' : Z)
        (net net' : red) :
  minuto = 0 \/ minuto = 30 ->
  propagada (publicar_datos self minuto net) = None ->
  let despues := estado (publicar_datos self minuto net) in
  estado (publicar_datos despues minuto' net') = despues /\
  peticiones (traza (publicar_datos despues minuto' net')) = [] /\
  propagada (publicar_datos despues minuto' net') = None.
Proof.
  intros Hm Hp despues. subst despues.
  rewrite (publicar_datos_en_punto self minuto net Hm) in *.
  cbn [estado propagada] in *.
  destruct (bucle_completo net _ 0%nat Hp) as (He & _). rewrite He.
  unfold publicar_datos. destruct (existsb (Z.eqb minuto') [0; 30]);
    cbn [estado traza propagada buffers_por_dispositivo peticiones]; [|auto].
  rewrite (bucle_vacios net' _ 0%nat (map_vaciar_vacios _)). auto.
Qed.

Lemma X5_no_second_request_witness :
  peticiones (traza (publicar_datos (estado (publicar_datos nodo_ejemplo 0 red_averiada))
                                    30 red_sana)) = [].
Proof.
  destruct (X5_no_second_request nodo_ejemplo 0 30 red_averiada red_sana
              (or_introl eq_refl) (publicacion_completa red_averiada)) as (_ & H & _).
  exact H.
Defined.

(** X6: in every tick, completed or interrupted, the requests made are an
    initial part of the summaries of the non-empty buffers in the order of the
    store: never a request for an empty buffer, never two for one device,
    never out of order. *)
Theorem X6_requests_prefix {O : Ordenacion} (self : NodoCentral) (minuto : Z) (net : red) :
  exists rest,
    resumenes (buffers_por_dispositivo self) =
    peticiones (traza (publicar_datos self minuto net)) ++ rest.
Proof.
  unfold publicar_datos. destruct (existsb (Z.eqb minuto) [0; 30]);
    cbn [traza peticiones].
  - apply bucle_prefijo.
  - now exists (resumenes (buffers_por_dispositivo self)).
Qed.

(** X7: the only exception that escapes a tick is [OverflowError], raised by
    the line that logs what was sent.  It leaves the devices visited before
    emptied, the device it was raised for and the later ones untouched, and
    the request for that device already made. *)
Theorem X7_interruption {O : Ordenacion} (self : NodoCentral) (minuto : Z) (net : red)
        (ex : excepcion) :
  propagada (publicar_datos self minuto net) = Some ex ->
  ex = OverflowError /\ (minuto = 0 \/ minuto = 30) /\
  exists hechos e resto,
    buffers_por_dispositivo self = hechos ++ e :: resto /\
    buffers_por_dispositivo (estado (publicar_datos self minuto net)) =
    map vaciar hechos ++ e :: resto /\
    Forall publicable hechos /\ buffer_de e <> [] /\ ~ publicable e /\
    peticiones (traza (publicar_datos self minuto net)) = resumenes (hechos ++ [e]).
Proof.
  intros Hp.
  destruct (Z.eq_dec minuto 0) as [H0|H0];
    [|destruct (Z.eq_dec minuto 30) as [H30|H30]].
  3: { rewrite (publicar_datos_fuera self minuto net H0 H30) in Hp. discriminate. }
  all: assert (Hm : minuto = 0 \/ minuto = 30) by auto;
    rewrite (publicar_datos_en_punto self minuto net Hm) in *;
    cbn [estado traza propagada buffers_por_dispositivo peticiones] in *;
    destruct (bucle_interrumpido net _ 0%nat ex Hp) as (-> & H);
    split; [reflexivity|]; split; [exact Hm | exact H].
Qed.

Lemma X7_interruption_witness :
  exists hechos e resto,
    buffers_por_dispositivo nodo_enorme = hechos ++ e :: resto /\
    buffers_por_dispositivo (estado (publicar_datos nodo_enorme 0 red_sana)) =
    map vaciar hechos ++ e :: resto /\
    peticiones (traza (publicar_datos nodo_enorme 0 red_sana)) = resumenes (hechos ++ [e]).
Proof.
  destruct (X7_interruption nodo_enorme 0 red_sana OverflowError)
    as (_ & _ & hechos & e & resto & H1 & H2 & _ & _ & _ & H3).
  - vm_compute. reflexivity.
  - exists hechos, e, resto. auto.
Defined.

(** ** Runs: reception and publication together *)

Section Corridas.

Context {O : Ordenacion}.

Variable json_loads : string -> res valor.

Lemma buffer_actual_recibir (self : NodoCentral) (msg : string) (d : dict) (c : clave) :
  llega json_loads c msg d ->
  buffer_actual c (fst (listener_callback json_loads self msg)) =
  buffer_actual c self ++ [d] /\
  forall c', c' <> c ->
             buscar c' (buffers_por_dispositivo (fst (listener_callback json_loads self msg))) =
             buscar c' (buffers_por_dispositivo self).
Proof.
  intros (Hj & Hv & Hh). rewrite listener_callback_estado.
  rewrite (recibir_agrega json_loads self msg d c Hj Hv Hh).
  unfold buffer_actual. cbn [buffers_por_dispositivo]. split.
  - now rewrite buscar_agregar_misma.
  - intros c' Hc'. now apply buscar_agregar_otra.
Qed.

Lemma recibir_lista_buffer (msgs : list string) (ds : list dict) (c : clave) :
  Forall2 (llega json_loads c) msgs ds ->
  forall self,
    buffer_actual c (recibir_lista json_loads msgs self) = buffer_actual c self ++ ds /\
    forall c', c' <> c ->
               buscar c' (buffers_por_dispositivo (recibir_lista json_loads msgs self)) =
               buscar c' (buffers_por_dispositivo self).
Proof.
  induction 1 as [|msg d msgs ds Hl _ IH]; intros self; simpl.
  - rewrite app_nil_r. auto.
  - destruct (buffer_actual_recibir self msg d c Hl) as (H1 & H2).
    destruct (IH (fst (listener_callback json_loads self msg))) as (H3 & H4).
    split.
    + rewrite H3, H1, <- app_assoc. reflexivity.
    + intros c' Hc'. rewrite (H4 c' Hc'). now apply H2.
Qed.

(** A store with the single key [c] stays so under messages of [c]. *)
Lemma recibir_lista_una_entrada (msgs : list string) (ds : list dict) (c : clave) :
  Forall2 (llega json_loads c) msgs ds ->
  forall id_disp b,
    recibir_lista json_loads msgs
      {| buffers_por_dispositivo :=
           [{| clave_de := c; id_de := id_disp; buffer_de := b |}] |} =
    {| buffers_por_dispositivo :=
         [{| clave_de := c; id_de := id_disp; buffer_de := b ++ ds |}] |}.
Proof.
  induction 1 as [|msg d msgs ds (Hj & Hv & Hh) _ IH]; intros id_disp b; simpl.
  - now rewrite app_nil_r.
  - rewrite listener_callback_estado, (recibir_agrega json_loads _ msg d c Hj Hv Hh).
    cbn [buffers_por_dispositivo agregar clave_de id_de buffer_de].
    rewrite clave_eqb_refl, IH, <- app_assoc. reflexivity.
Qed.

Lemma recibir_lista_desde_init (msgs : list string) (d0 : dict) (ds : list dict)
      (c : clave) :
  Forall2 (llega json_loads c) msgs (d0 :: ds) ->
  recibir_lista json_loads msgs init =
  {| buffers_por_dispositivo :=
       [{| clave_de := c; id_de := dict_get "id_dispositivo" d0;
           buffer_de := d0 :: ds |}] |}.
Proof.
  intros H. inversion H as [|msg ? msgs' ? (Hj & Hv & Hh) Hrest]; subst. simpl.
  rewrite listener_callback_estado, (recibir_agrega json_loads _ msg d0 c Hj Hv Hh).
  cbn [init buffers_por_dispositivo agregar].
  now rewrite (recibir_lista_una_entrada msgs' ds c Hrest).
Qed.

Lemma ejecutar_bien_formado (acciones : list accion) :
  forall self, bien_formado self ->
               bien_formado (fst (ejecutar json_loads acciones self)).
Proof.
  induction acciones as [|a acciones IH]; intros self Hbf; simpl; [exact Hbf|].
  destruct a as [msg|minuto net].
  - apply IH. now apply listener_callback_bien_formado.
  - pose proof (publicar_datos_bien_formado self minuto net Hbf) as Hp.
    destruct (propagada (publicar_datos self minuto net)); [exact Hp | now apply IH].
Qed.

End Corridas.

(** X1: whatever messages arrive and whatever ticks fire, in any order and
    with any network, the store of a freshly started node keeps one entry per
    key, each under the key of its identifier, and every record of a buffer
    carries the identifier of that buffer's device; also in the state an
    escaped exception leaves. *)
Theorem X1_store_invariant {O : Ordenacion} (json_loads : string -> res valor)
        (acciones : list accion) :
  bien_formado (fst (ejecutar json_loads acciones init)).
Proof. apply ejecutar_bien_formado, init_bien_formado. Qed.

(** X3: messages of one device are appended to its buffer in their order of
    arrival, after what the buffer held, and leave every other buffer as it
    was. *)
Theorem X3_arrival_order (json_loads : string -> res valor) (self : NodoCentral)
        (msgs : list string) (ds : list dict) (c : clave) :
  Forall2 (llega json_loads c) msgs ds ->
  buffer_actual c (recibir_lista json_loads msgs self) = buffer_actual c self ++ ds /\
  forall c', c' <> c ->
             buscar c' (buffers_por_dispositivo (recibir_lista json_loads msgs self)) =
             buscar c' (buffers_por_dispositivo self).
Proof. intros H. now apply recibir_lista_buffer. Qed.

Lemma X3_arrival_order_witness :
  buffer_actual (CStr "D1") (recibir_lista json_D1 ["m1"; "m2"; "m3"] init) = buffer_D1.
Proof.
  destruct (X3_arrival_order json_D1 init ["m1"; "m2"; "m3"] buffer_D1 (CStr "D1"))
    as (H & _).
  - repeat constructor.
  - exact H.
Defined.

(** X4: a fresh node that receives the records of one device and then ticks
    at minute 0 or 30 makes one request, whose payload is the reduction of
    exactly those records under the identifier of the first one, and is left
    with that device's buffer empty; this for records whose [int] readings
    are below [2^53] in absolute value and for any answer of the sink. *)
Theorem X4_receive_then_publish {O : Ordenacion} (json_loads : string -> res valor)
        (msgs : list string) (d0 : dict) (ds : list dict) (c : clave)
        (minuto : Z) (net : red) :
  minuto = 0 \/ minuto = 30 ->
  Forall2 (llega json_loads c) msgs (d0 :: ds) ->
  lecturas_pequenas (d0 :: ds) ->
  let out := publicar_datos (recibir_lista json_loads msgs init) minuto net in
  exists x,
    datos_filtrados (dict_get "id_dispositivo" d0) (d0 :: ds) = inr x /\
    peticiones (traza out) = [x] /\
    propagada out = None /\
    buffers_por_dispositivo (estado out) =
    [{| clave_de := c; id_de := dict_get "id_dispositivo" d0; buffer_de := [] |}].
Proof.
  intros Hm Hl Hp out. subst out.
  rewrite (recibir_lista_desde_init json_loads msgs d0 ds c Hl).
  rewrite (publicar_datos_en_punto _ minuto net Hm).
  cbn [estado traza propagada buffers_por_dispositivo peticiones].
  set (e := {| clave_de := c; id_de := dict_get "id_dispositivo" d0;
               buffer_de := d0 :: ds |}).
  assert (Hc : propagada (bucle net 0 [e]) = None).
  { apply bucle_convertible. constructor; [|constructor].
    now apply pequenas_convertibles. }
  destruct (bucle_completo net [e] 0%nat Hc) as (He & Hpet).
  destruct (datos_filtrados_no_vacio (dict_get "id_dispositivo" d0) (d0 :: ds))
    as [x Hx]; [discriminate|].
  exists x. split; [exact Hx|]. split; [|split; [exact Hc | now rewrite He]].
  rewrite Hpet. unfold resumenes. cbn [flat_map e buffer_de id_de].
  now rewrite Hx.
Qed.

Lemma X4_receive_then_publish_witness :
  peticiones (traza (publicar_datos (recibir_lista json_D1 ["m1"; "m2"; "m3"] init)
                                    30 red_averiada)) =
  [{| id_dispositivo := VStr "D1"; dominio := VStr "lab1";
      temperatura := decimal 21 1; ph := VNone; turbidez := VNone;
      oxigeno := VNone; luz := VNone |}].
Proof.
  destruct (X4_receive_then_publish json_D1 ["m1"; "m2"; "m3"]
              (lectura "D1" [("temperatura", decimal 201 10)])
              [lectura "D1" [("temperatura", decimal 223 10)];
               lectura "D1" [("temperatura", decimal 21 1); ("dominio", VStr "lab1")]]
              (CStr "D1") 30 red_averiada) as (x & Hx & Hp & _).
  - now right.
  - repeat constructor.
  - intros d c z Hd Hl. exfalso. cbn [In] in Hd.
    repeat (destruct Hd as [<- | Hd];
            [cbn in Hl;
             repeat match type of Hl with
                    | (if ?b then _ else _) = _ => destruct b
                    end; discriminate |]); exact Hd.
  - rewrite Hp. f_equal.
    assert (E : inr x = datos_filtrados (VStr "D1") buffer_D1) by (rewrite <- Hx; reflexivity).
    rewrite escenario_D1 in E. now injection E.
Defined.

(** X14: [listener_callback] never makes a request and always logs; a warning
    is logged only when the store is left as it was, and a store that changed
    was logged either as a received datum or, the record being stored
    already, as an [OverflowError] of its log line. *)
Theorem X14_reception_log (json_loads : string -> res valor) (self : NodoCentral)
        (msg : string) :
  let r := listener_callback json_loads self msg in
  peticiones (snd r) = [] /\ snd r <> [] /\
  (forall m, In (Log WARN m) (snd r) -> fst r = self) /\
  (fst r <> self ->
   (exists id_disp dom campos, snd r = [Log INFO (DatoRecibido id_disp dom campos)]) \/
   snd r = [Log ERROR (ErrorProcesando OverflowError)]).
Proof.
  intros r. subst r. unfold listener_callback, recibir.
  destruct (json_loads msg) as [e|v].
  { destruct e; cbn [fst snd peticiones]; repeat split; try discriminate;
      try (intros; reflexivity); intros H; now contradiction H. }
  destruct v as [|a|s|l|d];
    try (cbn [fst snd peticiones raise]; repeat split; try discriminate;
         try (intros; reflexivity); intros H; now contradiction H).
  destruct (verdadero (dict_get "id_dispositivo" d)).
  2: { cbn [fst snd peticiones ret]; repeat split; try discriminate;
       try (intros; reflexivity); intros H; now contradiction H. }
  destruct (hash (dict_get "id_dispositivo" d)) as [e|c].
  { destruct e; cbn [fst snd peticiones raise]; repeat split; try discriminate;
      try (intros; reflexivity); intros H; now contradiction H. }
  unfold dato_recibido.
  destruct (formatos _) as [e|campos] eqn:Hf; cbn [bind ret].
  - pose proof (formatos_error _ _ Hf) as ->.
    cbn [fst snd peticiones]. repeat split; try discriminate.
    + intros m [H|[]]. discriminate H.
    + intros _. now right.
  - cbn [fst snd peticiones]. repeat split; try discriminate.
    + intros m [H|[]]. discriminate H.
    + intros _. left. eauto.
Qed.

Lemma X14_reception_log_witness :
  fst (listener_callback json_D1 nodo_ejemplo "no es json") = nodo_ejemplo /\
  snd (listener_callback
         (responde (inr (VDict (lectura "D3" [("temperatura", VNum (NInt enorme))]))))
         init "msg") = [Log ERROR (ErrorProcesando OverflowError)].
Proof.
  split.
  - destruct (X14_reception_log json_D1 nodo_ejemplo "no es json") as (_ & _ & H & _).
    apply (H NoEsJSON). left. reflexivity.
  - destruct (X14_reception_log
                (responde (inr (VDict (lectura "D3" [("temperatura", VNum (NInt enorme))]))))
                init "msg") as (_ & _ & _ & H).
    destruct H as [(i & dm & cs & H) | H].
    + vm_compute. discriminate.
    + vm_compute in H. discriminate H.
    + exact H.
Defined.

(** ** Rank of the median and order of arrival *)

Section Rango.

Context {O : Ordenacion}.

Lemma filter_perm_length {A : Type} (p : A -> bool) (l l' : list A) :
  Permutation l l' -> List.length (filter p l) = List.length (filter p l').
Proof.
  induction 1 as [|x l l' _ IH|x y l|l l' l'' _ IH1 _ IH2]; simpl.
  - reflexivity.
  - destruct (p x); simpl; now rewrite IH.
  - destruct (p x), (p y); reflexivity.
  - now rewrite IH1.
Qed.

Lemma filter_ninguno {A : Type} (p : A -> bool) (l : list A) :
  Forall (fun a => p a = false) l -> filter p l = [].
Proof.
  induction 1 as [|x l Hx _ IH]; simpl; [reflexivity|]. now rewrite Hx.
Qed.

Lemma filter_a_lo_mas {A : Type} (p : A -> bool) (l : list A) :
  (List.length (filter p l) <= List.length l)%nat.
Proof.
  induction l as [|x l IH]; simpl; [lia|]. destruct (p x); simpl; lia.
Qed.

Lemma StronglySorted_partes {A : Type} (R : A -> A -> Prop) (l1 l2 : list A) (x : A) :
  StronglySorted R (l1 ++ x :: l2) ->
  Forall (fun a => R a x) l1 /\ Forall (R x) l2.
Proof.
  induction l1 as [|a l1 IH]; simpl; intros H.
  - split; [constructor | now inversion H].
  - inversion H as [|? ? Hs Hall]; subst. destruct (IH Hs) as (H1 & H2).
    split; [|exact H2]. constructor; [|exact H1].
    apply (proj1 (Forall_forall _ _) Hall). apply in_elt.
Qed.

Lemma menor_irrefl (a : numero) : menor a a = false.
Proof.
  destruct (menor a a) eqn:E; [|reflexivity].
  pose proof (menor_asim a a E). congruence.
Qed.

Lemma impar_mitad (n : nat) :
  Nat.odd n = true -> n = (2 * Nat.div n 2 + 1)%nat /\ Nat.even n = false.
Proof.
  intros Ho. split.
  - pose proof (Nat.div_mod_eq n 2) as Hd.
    assert (Hm : Nat.modulo n 2 = 1%nat).
    { pose proof Ho as Ho2. apply Nat.odd_spec in Ho2. destruct Ho2 as [k Hk].
      rewrite Hk, Nat.add_comm, Nat.mul_comm, Nat.Div0.mod_add. reflexivity. }
    lia.
  - now rewrite <- Nat.negb_odd, Ho.
Qed.

(** With an odd number of elements the middle is the element with as many
    elements before it as after it. *)
Lemma central_impar (l : list numero) :
  Nat.odd (List.length l) = true ->
  exists m l1 l2,
    central l = inr m /\
    l = l1 ++ m :: l2 /\
    List.length l1 = Nat.div (List.length l) 2 /\
    List.length l2 = Nat.div (List.length l) 2.
Proof.
  intros Ho. destruct (impar_mitad _ Ho) as (Hn & He).
  unfold central. rewrite He.
  destruct (nth_error_en_rango l (Nat.div (List.length l) 2)) as [m Hm]; [lia|].
  rewrite Hm. destruct (nth_error_split _ _ Hm) as (l1 & l2 & Hs & Hl1).
  exists m, l1, l2. split; [reflexivity|]. split; [exact Hs|]. split; [exact Hl1|].
  assert (Hlen : List.length l = List.length (l1 ++ m :: l2)) by (now rewrite <- Hs).
  rewrite length_app in Hlen. simpl in Hlen. lia.
Qed.

(** With an odd number of values the median is the middle one of the sorted
    values. *)
Lemma mediana_impar (valores : list numero) :
  Nat.odd (List.length valores) = true ->
  exists m l1 l2,
    mediana_estadistica valores = inr m /\
    ordenar_estable valores = l1 ++ m :: l2 /\
    List.length l1 = Nat.div (List.length valores) 2 /\
    List.length l2 = Nat.div (List.length valores) 2.
Proof.
  intros Ho. rewrite <- (ordenar_estable_length valores) in *.
  apply central_impar. exact Ho.
Qed.

Lemma magnitud_le_antisim (x y : option magnitud) :
  magnitud_le x y -> magnitud_le y x -> x = y.
Proof.
  destruct x as [[|a|]|], y as [[|b|]|]; simpl; try congruence; try contradiction.
  intros H1 H2. apply Z.ltb_ge in H1, H2. f_equal. f_equal. lia.
Qed.

Lemma ordenada_magnitudes (l : list numero) :
  Forall sin_nan l -> StronglySorted no_mayor l ->
  StronglySorted magnitud_le (map magnitud_de l).
Proof.
  induction l as [|a l IH]; simpl; intros Hn Hs; [constructor|].
  inversion Hn as [|? ? Ha Hnl]; subst. inversion Hs as [|? ? Hsl Hall]; subst.
  constructor; [now apply IH|].
  apply Forall_map. apply Forall_forall. intros b Hb.
  pose proof (proj1 (Forall_forall _ _) Hall b Hb) as Hab.
  pose proof (proj1 (Forall_forall _ _) Hnl b Hb) as Hbn.
  unfold sin_nan, no_mayor, menor, magnitud_le in *.
  destruct (magnitud_de a), (magnitud_de b); congruence.
Qed.

Lemma ordenada_unica {A : Type} (R : A -> A -> Prop) :
  (forall x y, R x y -> R y x -> x = y) ->
  forall l1 l2, StronglySorted R l1 -> StronglySorted R l2 ->
                Permutation l1 l2 -> l1 = l2.
Proof.
  intros Hanti. induction l1 as [|a l1 IH]; intros l2 H1 H2 Hp.
  - now apply Permutation_nil in Hp.
  - destruct l2 as [|b l2].
    { apply Permutation_sym, Permutation_nil in Hp. discriminate. }
    inversion H1 as [|? ? Hs1 Ha]; subst. inversion H2 as [|? ? Hs2 Hb]; subst.
    assert (Hab : a = b).
    { assert (Hin_a : In a (b :: l2)) by (apply (Permutation_in _ Hp); now left).
      assert (Hin_b : In b (a :: l1))
        by (apply (Permutation_in _ (Permutation_sym Hp)); now left).
      destruct Hin_a as [Hba|Hin_a]; [now symmetry|].
      destruct Hin_b as [Hab|Hin_b]; [exact Hab|].
      apply Hanti.
      - now apply (proj1 (Forall_forall _ _) Ha).
      - now apply (proj1 (Forall_forall _ _) Hb). }
    subst b. f_equal. apply IH; [assumption..|].
    now apply Permutation_cons_inv in Hp.
Qed.

Lemma valores_de_perm (buffer buffer' : list dict) (c : string) :
  Permutation buffer buffer' ->
  Permutation (valores_de buffer c) (valores_de buffer' c).
Proof. intros H. unfold valores_de. now apply Permutation_flat_map. Qed.

Lemma ordenar_estable_magnitudes_perm (l l' : list numero) :
  Permutation l l' -> Forall sin_nan l ->
  map magnitud_de (ordenar_estable l) = map magnitud_de (ordenar_estable l').
Proof.
  intros Hp Hn.
  assert (Hn' : Forall sin_nan l') by (apply (Permutation_Forall Hp Hn)).
  apply (ordenada_unica magnitud_le magnitud_le_antisim).
  - apply ordenada_magnitudes;
      [now apply ordenar_estable_conserva_sin_nan | now apply ordenar_estable_StronglySorted].
  - apply ordenada_magnitudes;
      [now apply ordenar_estable_conserva_sin_nan | now apply ordenar_estable_StronglySorted].
  - apply Permutation_map.
    eapply perm_trans; [apply ordenar_estable_perm|].
    eapply perm_trans; [exact Hp|]. apply Permutation_sym, ordenar_estable_perm.
Qed.

Lemma sorted_magnitudes_perm (l l' : list numero) :
  Permutation l l' -> Forall sin_nan l ->
  map magnitud_de (sorted l) = map magnitud_de (sorted l').
Proof.
  intros Hp Hn.
  assert (Hn' : Forall sin_nan l') by (apply (Permutation_Forall Hp Hn)).
  rewrite (sorted_sin_nan l Hn), (sorted_sin_nan l' Hn').
  now apply ordenar_estable_magnitudes_perm.
Qed.

Lemma pivote_igual {A : Type} (l1 l1' l2 l2' : list A) (x y : A) :
  List.length l1 = List.length l1' -> l1 ++ x :: l2 = l1' ++ y :: l2' -> x = y.
Proof.
  revert l1'. induction l1 as [|a l1 IH]; intros [|a' l1']; simpl; try discriminate.
  - intros _ H. now injection H.
  - intros Hl H. injection H as _ H. injection Hl as Hl. now apply (IH l1').
Qed.

End Rango.

(** X11: with an odd number of values for a field, none of them NaN, the
    median is never absent: it is one of the values read, with fewer than half
    of the values strictly below it and fewer than half strictly above. *)
Theorem X11_odd_median_rank {O : Ordenacion} (buffer : list dict) (c : string) :
  Forall sin_nan (valores_de buffer c) ->
  Nat.odd (List.length (valores_de buffer c)) = true ->
  exists m,
    calcular_mediana buffer c = VNum m /\
    In m (valores_de buffer c) /\
    (2 * List.length (por_debajo m (valores_de buffer c)) <
     List.length (valores_de buffer c))%nat /\
    (2 * List.length (por_encima m (valores_de buffer c)) <
     List.length (valores_de buffer c))%nat.
Proof.
  intros Hn Ho. set (vals := valores_de buffer c) in *.
  destruct (mediana_impar vals Ho) as (m & l1 & l2 & Hm & Hs & Hl1 & Hl2).
  destruct (impar_mitad _ Ho) as (Hlen & _).
  pose proof (ordenar_estable_StronglySorted vals Hn) as Hss. rewrite Hs in Hss.
  destruct (StronglySorted_partes _ _ _ _ Hss) as (Hantes & Hdespues).
  exists m. split; [|split; [|split]].
  - rewrite (calcular_mediana_eq _ _ Hn). fold vals. rewrite Hm.
    destruct vals; [discriminate Ho | reflexivity].
  - apply (Permutation_in _ (ordenar_estable_perm vals)). rewrite Hs. apply in_elt.
  - unfold por_debajo.
    rewrite <- (filter_perm_length _ _ _ (ordenar_estable_perm vals)), Hs, filter_app.
    cbn [filter]. rewrite menor_irrefl, (filter_ninguno _ l2), length_app.
    + pose proof (filter_a_lo_mas (fun a => menor a m) l1). simpl. lia.
    + exact Hdespues.
  - unfold por_encima.
    rewrite <- (filter_perm_length _ _ _ (ordenar_estable_perm vals)), Hs, filter_app.
    cbn [filter]. rewrite menor_irrefl, (filter_ninguno _ l1), length_app.
    + pose proof (filter_a_lo_mas (fun a => menor m a) l2). simpl. lia.
    + exact Hantes.
Qed.

Lemma X11_odd_median_rank_witness :
  exists m,
    calcular_mediana buffer_D1 "temperatura" = VNum m /\
    In m (valores_de buffer_D1 "temperatura") /\
    (2 * List.length (por_debajo m (valores_de buffer_D1 "temperatura")) < 3)%nat.
Proof.
  destruct (X11_odd_median_rank buffer_D1 "temperatura") as (m & H1 & H2 & H3 & _).
  - vm_compute. repeat constructor; discriminate.
  - reflexivity.
  - exists m. auto.
Defined.



(** X13: the order in which the records of a buffer arrived does not change
    the values the median is taken from: for values without NaN, the sorted
    values of a rearranged buffer have the same exact values, place by place,
    and with an odd count the two medians have the same exact value. *)
Theorem X13_arrival_order_irrelevant {O : Ordenacion} (buffer buffer' : list dict) (c : string) :
  Permutation buffer buffer' ->
  Forall sin_nan (valores_de buffer c) ->
  map magnitud_de (sorted (valores_de buffer c)) =
  map magnitud_de (sorted (valores_de buffer' c)) /\
  (Nat.odd (List.length (valores_de buffer c)) = true ->
   exists m m',
     calcular_mediana buffer c = VNum m /\
     calcular_mediana buffer' c = VNum m' /\
     magnitud_de m = magnitud_de m').
Proof.
  intros Hp Hn.
  pose proof (valores_de_perm buffer buffer' c Hp) as Hv.
  pose proof (sorted_magnitudes_perm _ _ Hv Hn) as Hk.
  assert (Hn' : Forall sin_nan (valores_de buffer' c))
    by (apply (Permutation_Forall Hv Hn)).
  split; [exact Hk|]. intros Ho.
  assert (Ho' : Nat.odd (List.length (valores_de buffer' c)) = true)
    by (now rewrite <- (Permutation_length Hv)).
  destruct (mediana_impar _ Ho) as (m & l1 & l2 & Hm & Hs & Hl1 & _).
  destruct (mediana_impar _ Ho') as (m' & l1' & l2' & Hm' & Hs' & Hl1' & _).
  exists m, m'. split; [|split].
  - rewrite (calcular_mediana_eq _ _ Hn), Hm.
    destruct (valores_de buffer c); [discriminate Ho | reflexivity].
  - rewrite (calcular_mediana_eq _ _ Hn'), Hm'.
    destruct (valores_de buffer' c); [discriminate Ho' | reflexivity].
  - rewrite (sorted_sin_nan _ Hn), (sorted_sin_nan _ Hn') in Hk.
    rewrite Hs, Hs', !map_app in Hk. cbn [map] in Hk.
    apply (pivote_igual _ _ _ _ _ _) in Hk; [exact Hk|].
    rewrite !length_map, Hl1, Hl1', (Permutation_length Hv). reflexivity.
Qed.

Lemma X13_arrival_order_irrelevant_witness :
  map magnitud_de (sorted (valores_de buffer_D1 "temperatura")) =
  map magnitud_de (sorted (valores_de (rev buffer_D1) "temperatura")).
Proof.
  destruct (X13_arrival_order_irrelevant buffer_D1 (rev buffer_D1) "temperatura")
    as (H & _).
  - apply Permutation_rev.
  - vm_compute. repeat constructor; discriminate.
  - exact H.
Defined.

(** ** Shape of the payload and order of the floats *)



(** X16: on [float] readings, the comparison [sorted] uses to order the
    values of [calcular_mediana] is the IEEE 754 less-than of binary64: the
    exact-value order of the model and the comparison of signs, exponents and
    mantissas agree on every pair of valid floats, zeros of either sign,
    infinities and NaN included. *)
Theorem X16_float_order_is_ieee (f g : spec_float) :
  valid_binary prec emax f = true -> valid_binary prec emax g = true ->
  menor (NFloat f) (NFloat g) = SFltb f g /\
  (menor (NFloat f) (NFloat g) = true -> menor (NFloat g) (NFloat f) = false).
Proof.
  intros Hf Hg. split; [now apply menor_SFltb | apply menor_asim].
Qed.

Lemma X16_float_order_is_ieee_witness :
  menor (NFloat (float_de_racional false 201 10))
        (NFloat (float_de_racional false 223 10)) =
  SFltb (float_de_racional false 201 10) (float_de_racional false 223 10).
Proof.
  destruct (X16_float_order_is_ieee (float_de_racional false 201 10)
              (float_de_racional false 223 10)) as (H & _);
    [reflexivity | reflexivity | exact H].
Defined.
